(** * Jobly: the job model and the partial-update SQL builder

    A shallow embedding of [helpers/sql.js] (the function
    [sqlForPartialUpdate]) and of [models/job.js] (the class [Job]),
    together with a model of the relational store the job model talks to,
    followed by the properties of the two that the specification states. *)

From Stdlib Require Import String Ascii List ZArith Lia Bool.
From Stdlib Require Import Decimal DecimalString DecimalFacts DecimalNat DecimalPos DecimalZ.
From Stdlib Require Import Sorted Permutation OrdersEx RelationClasses.
Import ListNotations.

Open Scope string_scope.

(* ================================================================== *)
(** * JavaScript values and plain objects *)
(* ================================================================== *)

Module Js.

(** The JavaScript values that reach the code under study.  Numbers are
    the integral ones (salaries, ids, counts); decimals such as an equity
    travel as text.  A number is a double: [Num z] is the double nearest
    to the integer [z], which is [z] itself up to [2 ^ 53] and for every
    integer a double holds.  [NativeFn name] is a built-in function
    object and [ProtoObj] is the object [Object.prototype] itself: both
    are what a property read on a plain object can find on the prototype
    chain. *)
Inductive value : Type :=
| Undefined
| Null
| Bool (b : bool)
| Num (z : Z)
| Str (s : string)
| NativeFn (name : string)
| ProtoObj.

(** A plain object, as the list of its own enumerable string-keyed
    properties in the order in which [Object.keys] enumerates them. *)
Definition obj : Type := list (string * value).

(** Decimal rendering of a natural number and of an integer. *)
Definition string_of_nat (n : nat) : string :=
  NilEmpty.string_of_uint (Nat.to_uint n).

Definition string_of_Z (z : Z) : string :=
  NilZero.string_of_int (Z.to_int z).

(** [ToBoolean]: the falsy values are [undefined], [null], [false], [0]
    and the empty string. *)
Definition truthy (v : value) : bool :=
  match v with
  | Undefined => false
  | Null => false
  | Bool b => b
  | Num z => negb (z =? 0)%Z
  | Str s => negb (s =? "")
  | NativeFn _ => true
  | ProtoObj => true
  end.

(** ** Numbers as text *)

(** [Number.MAX_SAFE_INTEGER]: up to it every integer is a double. *)
Definition max_safe_integer : Z := 9007199254740991.

(** The double nearest to the natural number [a], as the integer it
    holds: [a] is cut to 53 significant bits, to the nearest, and to the
    even one of two that are equally near. *)
Definition round_double (a : Z) : Z :=
  let e := (Z.log2 a - 52)%Z in
  if (e <=? 0)%Z then a
  else
    let q := Z.shiftr a e in
    let r := (a - Z.shiftl q e)%Z in
    let half := Z.shiftl 1 (e - 1) in
    let q' := if (r <? half)%Z then q
              else if (half <? r)%Z then (q + 1)%Z
              else if Z.even q then q else (q + 1)%Z in
    Z.shiftl q' e.

(** From here on the nearest double is [Infinity]. *)
Definition overflows (a : Z) : bool := (2 ^ 1024 - 2 ^ 970 <=? a)%Z.

(** The number of decimal digits of a positive integer. *)
Definition digits (a : Z) : nat := nb_digits (Pos.to_uint (Z.to_pos a)).

(** The integer with the fewest significant digits that the double [v]
    (of [n] digits) is the nearest double to, looking for it with [k]
    significant digits and then more; of two with as many digits the
    nearer to [v], and of two equally near the even one. *)
Fixpoint shortest (fuel k n : nat) (v : Z) : Z :=
  match fuel with
  | O => v
  | S fuel' =>
      let p := (10 ^ Z.of_nat (n - k))%Z in
      let lo := (v / p * p)%Z in
      let hi := (lo + p)%Z in
      let ok_lo := (round_double lo =? v)%Z in
      let ok_hi := (round_double hi =? v)%Z in
      if ok_lo && ok_hi then
        if (v - lo <? hi - v)%Z then lo
        else if (hi - v <? v - lo)%Z then hi
        else if Z.even (v / p) then lo else hi
      else if ok_lo then lo
      else if ok_hi then hi
      else shortest fuel' (S k) n v
  end.

(** A run of digits without the zeros at its end. *)
Fixpoint strip_zeros (s : string) : string :=
  match s with
  | EmptyString => EmptyString
  | String c s' =>
      match strip_zeros s' with
      | EmptyString =>
          if (c =? "0")%char then EmptyString else String c EmptyString
      | r => String c r
      end
  end.

(** The exponent form of a positive integer: its first digit, a point
    and its other digits up to the last that is not zero, then [e+] and
    the number of digits after the first. *)
Definition exponential (w : Z) : string :=
  let ds := string_of_Z w in
  let exponent := "e+" ++ string_of_nat (String.length ds - 1) in
  match strip_zeros ds with
  | EmptyString => EmptyString
  | String d EmptyString => String d exponent
  | String d rest => String d (String "." (rest ++ exponent))
  end.

(** [Number::toString] of a double above [max_safe_integer]: the digits
    that tell it from every other double, written in full below
    [10 ^ 21] and in exponent form from there on. *)
Definition magnitude_to_string (a : Z) : string :=
  let v := round_double a in
  let w := shortest 17 1 (digits v) v in
  if (w <? 10 ^ 21)%Z then string_of_Z w else exponential w.

(** [Number::toString] of the number [Num z]. *)
Definition number_to_string (z : Z) : string :=
  if (Z.abs z <=? max_safe_integer)%Z then string_of_Z z
  else
    (if (z <? 0)%Z then "-" else "")
    ++ (if overflows (Z.abs z) then "Infinity"
        else magnitude_to_string (Z.abs z)).

(** [ToString], as a template literal applies it to an interpolated
    value. *)
Definition to_string (v : value) : string :=
  match v with
  | Undefined => "undefined"
  | Null => "null"
  | Bool true => "true"
  | Bool false => "false"
  | Num z => number_to_string z
  | Str s => s
  | NativeFn name => "function " ++ name ++ "() { [native code] }"
  | ProtoObj => "[object Object]"
  end.

(** [a || b]. *)
Definition or (a b : value) : value := if truthy a then a else b.

(** Own-property lookup. *)
Fixpoint own_get (o : obj) (k : string) : option value :=
  match o with
  | [] => None
  | (k', v) :: rest => if k' =? k then Some v else own_get rest k
  end.

(** The properties of [Object.prototype], which every object literal
    inherits. *)
Definition object_prototype : obj :=
  [ ("constructor", NativeFn "Object");
    ("__defineGetter__", NativeFn "__defineGetter__");
    ("__defineSetter__", NativeFn "__defineSetter__");
    ("hasOwnProperty", NativeFn "hasOwnProperty");
    ("__lookupGetter__", NativeFn "__lookupGetter__");
    ("__lookupSetter__", NativeFn "__lookupSetter__");
    ("isPrototypeOf", NativeFn "isPrototypeOf");
    ("propertyIsEnumerable", NativeFn "propertyIsEnumerable");
    ("toString", NativeFn "toString");
    ("valueOf", NativeFn "valueOf");
    ("__proto__", ProtoObj);
    ("toLocaleString", NativeFn "toLocaleString") ].

(** [o[k]] on a plain object: the own property if there is one, else the
    inherited one, else [undefined]. *)
Definition get (o : obj) (k : string) : value :=
  match own_get o k with
  | Some v => v
  | None =>
      match own_get object_prototype k with
      | Some v => v
      | None => Undefined
      end
  end.

(** [Object.keys] and [Object.values]. *)
Definition keys (o : obj) : list string := map fst o.
Definition values (o : obj) : list value := map snd o.

(** [Array.prototype.map] with the callback's index argument. *)
Fixpoint map_from {A B : Type} (f : A -> nat -> B) (idx : nat) (l : list A)
  : list B :=
  match l with
  | [] => []
  | x :: rest => f x idx :: map_from f (S idx) rest
  end.

Definition map_idx {A B : Type} (f : A -> nat -> B) (l : list A) : list B :=
  map_from f 0 l.

(** [Array.prototype.join] on an array of strings. *)
Fixpoint join (sep : string) (l : list string) : string :=
  match l with
  | [] => ""
  | [x] => x
  | x :: rest => x ++ sep ++ join sep rest
  end.

End Js.

(* ================================================================== *)
(** * Errors and results *)
(* ================================================================== *)

(** [BadRequestError] and [NotFoundError] are the two error classes of
    [expressError] the code throws; [StoreError] stands for whatever the
    database client throws: the code never catches it. *)
Inductive error : Type :=
| BadRequestError (msg : string)
| NotFoundError (msg : string)
| StoreError (msg : string).

Inductive result (A : Type) : Type :=
| Ok (a : A)
| Err (e : error).

Arguments Ok {A} a.
Arguments Err {A} e.

(** The double-quote character, and a string between two of them. *)
Definition dquote : string := String (ascii_of_nat 34) EmptyString.

Definition quoted (s : string) : string := dquote ++ s ++ dquote.

(* ================================================================== *)
(** * helpers/sql.js *)
(* ================================================================== *)

Record fragments : Type := mkFragments {
  setCols : string;
  values : list Js.value
}.

(** The callback of [keys.map] in [sqlForPartialUpdate]: the template
    literal  ["${jsToSql[colName] || colName}"=$${idx + 1}]. *)
Definition col_fragment (jsToSql : Js.obj) (colName : string) (idx : nat)
  : string :=
  dquote
    ++ Js.to_string (Js.or (Js.get jsToSql colName) (Js.Str colName))
    ++ dquote ++ "=$" ++ Js.string_of_nat (idx + 1).

Definition sqlForPartialUpdate (dataToUpdate jsToSql : Js.obj)
  : result fragments :=
  let keys := Js.keys dataToUpdate in
  if (length keys =? 0)%nat then Err (BadRequestError "No data")
  else
    let cols := Js.map_idx (col_fragment jsToSql) keys in
    Ok {| setCols := Js.join ", " cols;
          values := Js.values dataToUpdate |}.


(* ================================================================== *)
(** * The relational store *)
(* ================================================================== *)

Module Db.

(** Modelled from the spec: the module [db] (the database client whose
    [query] every operation of [Job] awaits) and the schema of the table
    [jobs] are not among the sources.  The store below follows the data model of the
    specification: a job has an integer [id] (unique, never null), a
    [title] (text, required), a [salary] (integer or null), an [equity]
    (exact decimal in [0,1], or null) and a [company_handle] (text,
    required, naming an existing company); the column names are those of
    the statements in [job.js].  A statement either yields rows or fails
    as a whole, leaving the store as it was.  The table of applications,
    whose rows refer to jobs, is outside the model: a statement that
    rewrites the id of a job is modelled for the jobs that no application
    refers to. *)

(** An exact decimal: [mantissa / 10 ^ scale]. *)
Record numeric : Type := mkNumeric {
  mantissa : Z;
  scale : nat
}.

(** Modelled from the spec: a row of the table [jobs], whose schema is
    not among the sources, with the names the [SELECT] and [RETURNING]
    lists of [job.js] give its columns ([company_handle AS
    "companyHandle"]).  The required columns are never null. *)
Record job : Type := mkJob {
  id : Z;
  title : string;
  salary : option Z;
  equity : option numeric;
  companyHandle : string
}.

(** Modelled from the spec: the table [jobs] in its natural row order,
    and the handles of the table [companies]. *)
Record store : Type := mkStore {
  jobs : list job;
  companies : list string
}.

(** The content of a column of a row. *)
Inductive cell : Type :=
| CNull
| CInteger (z : Z)
| CText (t : string)
| CNumeric (q : numeric).

Definition field (col : string) (j : job) : cell :=
  if col =? "id" then CInteger (id j)
  else if col =? "title" then CText (title j)
  else if col =? "salary" then
    match salary j with Some z => CInteger z | None => CNull end
  else if col =? "equity" then
    match equity j with Some q => CNumeric q | None => CNull end
  else if col =? "company_handle" then CText (companyHandle j)
  else CNull.

(** ** Reading numbers *)

Definition digit_of (c : ascii) : option (uint -> uint) :=
  if (c =? "0")%char then Some D0 else
  if (c =? "1")%char then Some D1 else
  if (c =? "2")%char then Some D2 else
  if (c =? "3")%char then Some D3 else
  if (c =? "4")%char then Some D4 else
  if (c =? "5")%char then Some D5 else
  if (c =? "6")%char then Some D6 else
  if (c =? "7")%char then Some D7 else
  if (c =? "8")%char then Some D8 else
  if (c =? "9")%char then Some D9 else None.

(** The longest prefix of digits of [s], and what follows it. *)
Fixpoint read_uint (s : string) : uint * string :=
  match s with
  | EmptyString => (Nil, EmptyString)
  | String c s' =>
      match digit_of c with
      | Some D => let (d, r) := read_uint s' in (D d, r)
      | None => (Nil, s)
      end
  end.

(** A non-empty run of digits and nothing else. *)
Definition parse_uint (s : string) : option uint :=
  match read_uint s with
  | (Nil, _) => None
  | (d, EmptyString) => Some d
  | _ => None
  end.

Definition parse_integer (s : string) : option Z :=
  match s with
  | String "-" s' => option_map (fun d => (- Z.of_uint d)%Z) (parse_uint s')
  | _ => option_map Z.of_uint (parse_uint s)
  end.

(** Digits, then optionally a point and more digits. *)
Definition parse_unsigned_numeric (s : string) : option numeric :=
  match read_uint s with
  | (Nil, _) => None
  | (d, EmptyString) => Some (mkNumeric (Z.of_uint d) 0)
  | (d, String "." s') =>
      match read_uint s' with
      | (f, EmptyString) =>
          Some (mkNumeric (Z.of_uint (Decimal.app d f)) (nb_digits f))
      | _ => None
      end
  | _ => None
  end.

Definition parse_numeric (s : string) : option numeric :=
  match s with
  | String "-" s' =>
      option_map (fun q => mkNumeric (- mantissa q) (scale q))
                 (parse_unsigned_numeric s')
  | _ => parse_unsigned_numeric s
  end.

(** A positional placeholder [$n]. *)
Definition parse_placeholder (s : string) : option nat :=
  match s with
  | String "$" s' => option_map Nat.of_uint (parse_uint s')
  | _ => None
  end.

(** ** Parameters *)

(** The value bound to [$n]: positions count from one. *)
Definition param (params : list Js.value) (n : nat) : option Js.value :=
  match n with
  | O => None
  | S k => nth_error params k
  end.

(** What the client sends for a parameter: [null] and [undefined] become
    SQL NULL ([None]), everything else its text. *)
Definition param_text (v : Js.value) : option string :=
  match v with
  | Js.Undefined | Js.Null => None
  | Js.ProtoObj => Some "{}"
  | _ => Some (Js.to_string v)
  end.

(** The store reads a parameter at the type of the column it meets.
    The outer [option] is failure (the text is not of that type), the
    inner one is SQL NULL. *)
Definition as_text (v : Js.value) : option (option string) :=
  Some (param_text v).

(** Modelled from the spec: the integer columns of the store ([id] and
    [salary]) hold the integers of 32 bits, and the store refuses any
    other as a value for them or to compare them with. *)
Definition int4_min : Z := -2147483648.
Definition int4_max : Z := 2147483647.

Definition in_int4 (z : Z) : bool :=
  (int4_min <=? z)%Z && (z <=? int4_max)%Z.

Definition read_integer (t : string) : option Z :=
  match parse_integer t with
  | Some z => if in_int4 z then Some z else None
  | None => None
  end.

Definition as_integer (v : Js.value) : option (option Z) :=
  match param_text v with
  | None => Some None
  | Some t => option_map Some (read_integer t)
  end.

Definition as_numeric (v : Js.value) : option (option numeric) :=
  match param_text v with
  | None => Some None
  | Some t => option_map Some (parse_numeric t)
  end.

(** ** Comparisons *)

(** [a > b] on exact decimals. *)
Definition numeric_gtb (a b : numeric) : bool :=
  (mantissa b * 10 ^ Z.of_nat (scale a)
   <? mantissa a * 10 ^ Z.of_nat (scale b))%Z.

Definition numeric_leb (a b : numeric) : bool := negb (numeric_gtb a b).

(** Lower case, of the letters A to Z. *)
Definition lower_char (c : ascii) : ascii :=
  let n := nat_of_ascii c in
  if ((65 <=? n) && (n <=? 90))%nat then ascii_of_nat (n + 32) else c.

Fixpoint lower (s : string) : string :=
  match s with
  | EmptyString => EmptyString
  | String c s' => String (lower_char c) (lower s')
  end.

(** Modelled from the spec: the pattern matching of the absent store.
    [text LIKE pattern]: [%] stands for any run of characters, [_] for
    any one character, and a backslash makes the character after it
    stand for itself. *)
Fixpoint like (pattern : string) : string -> bool :=
  match pattern with
  | EmptyString =>
      fun text => match text with EmptyString => true | _ => false end
  | String c p =>
      if (c =? "%")%char then
        fix skip (text : string) : bool :=
          like p text
          || match text with
             | EmptyString => false
             | String _ t => skip t
             end
      else if (c =? "_")%char then
        fun text =>
          match text with
          | EmptyString => false
          | String _ t => like p t
          end
      else if (c =? "\")%char then
        match p with
        | EmptyString => fun _ => false
        | String e p' =>
            fun text =>
              match text with
              | EmptyString => false
              | String d t => (e =? d)%char && like p' t
              end
        end
      else
        fun text =>
          match text with
          | EmptyString => false
          | String d t => (c =? d)%char && like p t
          end
  end.

(** [text ILIKE pattern]: [LIKE] without regard to letter case. *)
Definition ilike (text pattern : string) : bool :=
  like (lower pattern) (lower text).

(** ** Conditions of a [WHERE] clause *)

(** The conditions [job.js] writes, each on the placeholder [$n]. *)
Inductive cond : Type :=
| TitleILike (n : nat)        (* title ILIKE $n *)
| SalaryGe (n : nat)          (* salary >= $n *)
| EquityGt (n : nat)          (* equity > $n *)
| IdEq (n : nat)              (* id = $n *)
| CompanyHandleEq (n : nat).  (* company_handle = $n *)

Definition cond_sql (c : cond) : string :=
  match c with
  | TitleILike n => "title ILIKE $" ++ Js.string_of_nat n
  | SalaryGe n => "salary >= $" ++ Js.string_of_nat n
  | EquityGt n => "equity > $" ++ Js.string_of_nat n
  | IdEq n => "id = $" ++ Js.string_of_nat n
  | CompanyHandleEq n => "company_handle = $" ++ Js.string_of_nat n
  end.

(** A condition with its parameter read at the column's type. *)
Inductive bound_cond : Type :=
| BTitleILike (p : option string)
| BSalaryGe (p : option Z)
| BEquityGt (p : option numeric)
| BIdEq (p : option Z)
| BCompanyHandleEq (p : option string).

Definition bind_cond (params : list Js.value) (c : cond)
  : option bound_cond :=
  match c with
  | TitleILike n =>
      match param params n with
      | Some v => option_map BTitleILike (as_text v)
      | None => None
      end
  | SalaryGe n =>
      match param params n with
      | Some v => option_map BSalaryGe (as_integer v)
      | None => None
      end
  | EquityGt n =>
      match param params n with
      | Some v => option_map BEquityGt (as_numeric v)
      | None => None
      end
  | IdEq n =>
      match param params n with
      | Some v => option_map BIdEq (as_integer v)
      | None => None
      end
  | CompanyHandleEq n =>
      match param params n with
      | Some v => option_map BCompanyHandleEq (as_text v)
      | None => None
      end
  end.

Fixpoint bind_conds (params : list Js.value) (cs : list cond)
  : option (list bound_cond) :=
  match cs with
  | [] => Some []
  | c :: rest =>
      match bind_cond params c, bind_conds params rest with
      | Some b, Some bs => Some (b :: bs)
      | _, _ => None
      end
  end.

(** A row passes a condition when the comparison is true: a comparison
    with NULL on either side is unknown, and the row is left out. *)
Definition holds (b : bound_cond) (j : job) : bool :=
  match b with
  | BTitleILike (Some p) => ilike (title j) p
  | BSalaryGe (Some m) =>
      match salary j with
      | Some x => (m <=? x)%Z
      | None => false
      end
  | BEquityGt (Some q) =>
      match equity j with
      | Some e => numeric_gtb e q
      | None => false
      end
  | BIdEq (Some i) => (id j =? i)%Z
  | BCompanyHandleEq (Some h) => companyHandle j =? h
  | _ => false
  end.

Definition holds_all (bs : list bound_cond) (j : job) : bool :=
  forallb (fun b => holds b j) bs.

(** ** ORDER BY company_handle *)

(** Modelled from the spec: rows come out by ascending handle (handles
    compare character by character, by character code); rows of one
    company keep the natural row order. *)
Fixpoint insert_by_handle (j : job) (l : list job) : list job :=
  match l with
  | [] => [j]
  | x :: rest =>
      if companyHandle j <=? companyHandle x then j :: x :: rest
      else x :: insert_by_handle j rest
  end.

Fixpoint order_by_handle (l : list job) : list job :=
  match l with
  | [] => []
  | j :: rest => insert_by_handle j (order_by_handle rest)
  end.

(** ** The SET clause of an UPDATE *)

(** The text of a quoted identifier, read from just after its opening
    quote up to its closing quote; a doubled quote inside stands for one
    quote character.  Returns the identifier and what follows it. *)
Fixpoint read_identifier (s : string) : option (string * string) :=
  match s with
  | EmptyString => None
  | String c s' =>
      if (c =? ascii_of_nat 34)%char then
        match s' with
        | String c' s'' =>
            if (c' =? ascii_of_nat 34)%char then
              match read_identifier s'' with
              | Some (i, r) => Some (String c i, r)
              | None => None
              end
            else Some (EmptyString, s')
        | EmptyString => Some (EmptyString, s')
        end
      else
        match read_identifier s' with
        | Some (i, r) => Some (String c i, r)
        | None => None
        end
  end.

(** One assignment ["column"=$n], read as the column it names and the
    placeholder it takes its value from; returns it with what follows. *)
Definition parse_assignment (s : string)
  : option ((string * nat) * string) :=
  match s with
  | String q s1 =>
      if (q =? ascii_of_nat 34)%char then
        match read_identifier s1 with
        | Some (col, String "=" (String "$" s2)) =>
            match read_uint s2 with
            | (Nil, _) => None
            | (d, r) => Some ((col, Nat.of_uint d), r)
            end
        | _ => None
        end
      else None
  | EmptyString => None
  end.

(** A list of assignments separated by a comma and a space.  [fuel]
    bounds the number of assignments. *)
Fixpoint parse_set_clause (fuel : nat) (s : string)
  : option (list (string * nat)) :=
  match fuel with
  | O => None
  | S fuel' =>
      match parse_assignment s with
      | Some (a, EmptyString) => Some [a]
      | Some (a, String "," (String " " s')) =>
          match parse_set_clause fuel' s' with
          | Some l => Some (a :: l)
          | None => None
          end
      | _ => None
      end
  end.

(** A value ready to be stored in a column of [jobs]; [None] is NULL. *)
Inductive assignment : Type :=
| SetId (v : option Z)
| SetTitle (v : option string)
| SetSalary (v : option Z)
| SetEquity (v : option numeric)
| SetCompanyHandle (v : option string).

(** The column an assignment writes. *)
Definition target (a : assignment) : string :=
  match a with
  | SetId _ => "id"
  | SetTitle _ => "title"
  | SetSalary _ => "salary"
  | SetEquity _ => "equity"
  | SetCompanyHandle _ => "company_handle"
  end.

(** Modelled from the spec: the columns of [jobs] and their types.  A
    value is read at the type of the column it is assigned to; this
    fails on a name that is no column of [jobs] and on a value of the
    wrong type. *)
Definition bind_column (col : string) (v : Js.value) : option assignment :=
  if col =? "id" then option_map SetId (as_integer v)
  else if col =? "title" then option_map SetTitle (as_text v)
  else if col =? "salary" then option_map SetSalary (as_integer v)
  else if col =? "equity" then option_map SetEquity (as_numeric v)
  else if col =? "company_handle"
       then option_map SetCompanyHandle (as_text v)
  else None.

(** One assignment of the clause with the parameter of its placeholder;
    fails also on a placeholder without a parameter. *)
Definition bind_assignment (params : list Js.value) (a : string * nat)
  : option assignment :=
  let (col, n) := a in
  match param params n with
  | None => None
  | Some v => bind_column col v
  end.

Fixpoint bind_assignments (params : list Js.value) (l : list (string * nat))
  : option (list assignment) :=
  match l with
  | [] => Some []
  | a :: rest =>
      match bind_assignment params a, bind_assignments params rest with
      | Some b, Some bs => Some (b :: bs)
      | _, _ => None
      end
  end.

(** Modelled from the spec: the types of the columns of [jobs].  The
    store gives a placeholder the type of the column it first meets it
    with, and refuses the statement if it then meets it with a column of
    another type. *)
Inductive sql_type : Type :=
| TInteger
| TText
| TVarchar
| TNumeric.

Definition column_type (col : string) : option sql_type :=
  if col =? "id" then Some TInteger
  else if col =? "title" then Some TText
  else if col =? "salary" then Some TInteger
  else if col =? "equity" then Some TNumeric
  else if col =? "company_handle" then Some TVarchar
  else None.

Definition same_type (a b : option sql_type) : bool :=
  match a, b with
  | Some TInteger, Some TInteger => true
  | Some TText, Some TText => true
  | Some TVarchar, Some TVarchar => true
  | Some TNumeric, Some TNumeric => true
  | None, None => true
  | _, _ => false
  end.

(** The placeholders of an [UPDATE], each with the type of the column it
    stands by: those of the SET clause, then the one compared with
    [id]. *)
Definition uses (cols : list (string * nat)) (n : nat)
  : list (nat * option sql_type) :=
  (map (fun a => (snd a, column_type (fst a))) cols
   ++ [(n, Some TInteger)])%list.

Fixpoint consistent (l : list (nat * option sql_type)) : bool :=
  match l with
  | [] => true
  | (n, ty) :: rest =>
      forallb (fun u => negb (fst u =? n)%nat || same_type (snd u) ty) rest
      && consistent rest
  end.

(** No column is assigned twice. *)
Fixpoint distinct (l : list string) : bool :=
  match l with
  | [] => true
  | x :: rest => negb (existsb (String.eqb x) rest) && distinct rest
  end.

(** Writing one value into a row; a NULL for a required column is
    refused. *)
Definition assign (a : assignment) (j : job) : option job :=
  match a with
  | SetId (Some v) =>
      Some (mkJob v (title j) (salary j) (equity j) (companyHandle j))
  | SetTitle (Some v) =>
      Some (mkJob (id j) v (salary j) (equity j) (companyHandle j))
  | SetSalary v =>
      Some (mkJob (id j) (title j) v (equity j) (companyHandle j))
  | SetEquity v =>
      Some (mkJob (id j) (title j) (salary j) v (companyHandle j))
  | SetCompanyHandle (Some v) =>
      Some (mkJob (id j) (title j) (salary j) (equity j) v)
  | _ => None
  end.

Fixpoint assign_all (l : list assignment) (j : job) : option job :=
  match l with
  | [] => Some j
  | a :: rest =>
      match assign a j with
      | Some j' => assign_all rest j'
      | None => None
      end
  end.

(** Modelled from the spec: the constraints a written row must meet, an
    equity within [0,1] and a handle that names a company. *)
Definition equity_in_range (e : option numeric) : bool :=
  match e with
  | None => true
  | Some q => (0 <=? mantissa q)%Z && numeric_leb q (mkNumeric 1 0)
  end.

Definition row_ok (s : store) (j : job) : bool :=
  equity_in_range (equity j)
  && existsb (String.eqb (companyHandle j)) (companies s).

(** The new versions of the rows the WHERE clause selects, in the order
    of those rows: each is its row with the assignments made, and must
    meet the constraints. *)
Fixpoint rewrite_rows (s : store) (sel : job -> bool)
         (asg : list assignment) (l : list job) : option (list job) :=
  match l with
  | [] => Some []
  | j :: rest =>
      match rewrite_rows s sel asg rest with
      | None => None
      | Some rest' =>
          if sel j then
            match assign_all asg j with
            | Some j' => if row_ok s j' then Some (j' :: rest') else None
            | None => None
            end
          else Some rest'
      end
  end.

(** The primary key stays unique: the id of a new version is the id of
    that row alone. *)
Definition id_count (i : Z) (l : list job) : nat :=
  length (filter (fun x => (id x =? i)%Z) l).

Definition keys_unique (written table : list job) : bool :=
  forallb (fun j => (id_count (id j) table =? 1)%nat) written.

(** ** Statements *)

(** [SELECT id, title, salary, equity, company_handle AS "companyHandle"
    FROM jobs], with the conditions of its WHERE clause (joined by AND;
    none: no clause) and whether [ORDER BY company_handle] follows. *)
Record select : Type := mkSelect {
  where_ : list cond;
  order_by_company_handle : bool
}.

(** The statements of [job.js].  [Update] carries the two pieces of text
    the code splices into [UPDATE jobs SET ... WHERE id = ... RETURNING
    ...]; [Delete] is [DELETE FROM jobs WHERE ...]. *)
Inductive statement : Type :=
| Select (q : select)
| Update (set_clause : string) (id_placeholder : string)
| Delete (conds : list cond).

(** What [db.query] resolves to. *)
Record query_result : Type := mkQueryResult {
  rows : list job;
  rowCount : nat
}.

Definition answer (l : list job) : query_result :=
  mkQueryResult l (length l).

(** Modelled from the spec: a [SELECT] of the absent store.  The rows
    that pass every condition, ordered if the query says so; it fails
    when a placeholder has no parameter or a parameter is not of the type
    of the column it is compared with. *)
Definition exec_select (q : select) (params : list Js.value) (s : store)
  : result query_result :=
  match bind_conds params (where_ q) with
  | None => Err (StoreError "invalid parameter")
  | Some bs =>
      let found := filter (holds_all bs) (jobs s) in
      Ok (answer (if order_by_company_handle q
                  then order_by_handle found else found))
  end.

(** Modelled from the spec: an [UPDATE ... RETURNING] of the absent
    store.  The SET clause is read from its text; the statement fails,
    and changes nothing, when the text is no list of assignments, when a
    name is no column or is assigned twice, when a value is not of the
    type of its column, when a placeholder stands by columns of two
    types, or when a new version of a row breaks a constraint or takes
    an id in use.  Otherwise every row with the id
    gives way to its new version: the rows the statement does not touch
    keep their order, the new versions are written after them, and the
    new versions are returned. *)
Definition exec_update (set_clause id_placeholder : string)
           (params : list Js.value) (s : store)
  : result query_result * store :=
  match parse_set_clause (String.length set_clause) set_clause,
        parse_placeholder id_placeholder with
  | Some cols, Some n =>
      match bind_assignments params cols, bind_cond params (IdEq n) with
      | Some asg, Some b =>
          if negb (consistent (uses cols n))
          then (Err (StoreError "inconsistent types of a parameter"), s)
          else if distinct (map target asg) then
            match rewrite_rows s (holds b) asg (jobs s) with
            | Some versions =>
                let jobs' :=
                  (filter (fun j => negb (holds b j)) (jobs s)
                   ++ versions)%list in
                if existsb (String.eqb "id") (map target asg)
                   && negb (keys_unique versions jobs')
                then (Err (StoreError "duplicate key"), s)
                else (Ok (answer versions), mkStore jobs' (companies s))
            | None => (Err (StoreError "constraint violation"), s)
            end
          else (Err (StoreError "multiple assignments to same column"), s)
      | _, _ => (Err (StoreError "invalid column or parameter"), s)
      end
  | _, _ => (Err (StoreError "syntax error"), s)
  end.

(** Modelled from the spec: a [DELETE] of the absent store.  The rows
    that pass every condition are removed; no row is returned, and
    [rowCount] is their number. *)
Definition exec_delete (conds : list cond) (params : list Js.value)
           (s : store) : result query_result * store :=
  match bind_conds params conds with
  | None => (Err (StoreError "invalid parameter"), s)
  | Some bs =>
      let gone := filter (holds_all bs) (jobs s) in
      (Ok (mkQueryResult [] (length gone)),
       mkStore (filter (fun j => negb (holds_all bs j)) (jobs s))
               (companies s))
  end.

(** Modelled from the spec: [db.query(text, params)], the query executor
    of the absent module [db], on the statements [job.js] issues. *)
Definition query (st : statement) (params : list Js.value) (s : store)
  : result query_result * store :=
  match st with
  | Select q => (exec_select q params s, s)
  | Update set_clause id_placeholder =>
      exec_update set_clause id_placeholder params s
  | Delete conds => exec_delete conds params s
  end.

(** ** Inserting *)

(** Modelled from the spec: the table with the generator of its ids.  The
    specification has the id of a job generated by the store on creation;
    [next_id] is the id the store gives to the next row it is asked to
    insert. *)
Record sequenced : Type := mkSequenced {
  table : store;
  next_id : Z
}.

(** Modelled from the spec: [INSERT INTO jobs (title, salary, equity,
    company_handle) VALUES ($1, $2, $3, $4) RETURNING ...] of the absent
    store.  The four parameters are read at the types of their columns;
    the new row takes the next id, which must be one the column [id]
    holds, and goes after the rows of the table, provided the required
    columns are not null, the row meets the constraints and the id is
    not in use.  A statement that reaches the constraints uses up an id,
    whether it passes them or not. *)
Definition exec_insert (params : list Js.value) (d : sequenced)
  : result query_result * sequenced :=
  match param params 1, param params 2, param params 3, param params 4 with
  | Some p1, Some p2, Some p3, Some p4 =>
      match as_text p1, as_integer p2, as_numeric p3, as_text p4 with
      | Some t, Some sal, Some eq, Some h =>
          if in_int4 (next_id d) then
            let used := mkSequenced (table d) (next_id d + 1) in
            match t, h with
            | Some t', Some h' =>
                let j := mkJob (next_id d) t' sal eq h' in
                if row_ok (table d) j
                   && (id_count (next_id d) (jobs (table d)) =? 0)%nat
                then (Ok (answer [j]),
                      mkSequenced
                        (mkStore (jobs (table d) ++ [j])%list
                                 (companies (table d)))
                        (next_id d + 1))
                else (Err (StoreError "constraint violation"), used)
            | _, _ => (Err (StoreError "constraint violation"), used)
            end
          else (Err (StoreError "sequence exhausted"), d)
      | _, _, _, _ => (Err (StoreError "invalid parameter"), d)
      end
  | _, _, _, _ => (Err (StoreError "missing parameter"), d)
  end.

End Db.

(* ================================================================== *)
(** * models/job.js *)
(* ================================================================== *)

(** An operation of the model runs against the store and either returns
    or throws. *)
Definition M (A : Type) : Type := Db.store -> result A * Db.store.

Definition ret {A : Type} (a : A) : M A := fun s => (Ok a, s).

Definition throw {A : Type} (e : error) : M A := fun s => (Err e, s).

Definition bind {A B : Type} (m : M A) (k : A -> M B) : M B :=
  fun s =>
    match m s with
    | (Ok a, s') => k a s'
    | (Err e, s') => (Err e, s')
    end.

(** [await db.query(...)]. *)
Definition db_query (st : Db.statement) (params : list Js.value)
  : M Db.query_result :=
  Db.query st params.

(** A function that throws before it awaits anything. *)
Definition lift {A : Type} (r : result A) : M A :=
  match r with
  | Ok a => ret a
  | Err e => throw e
  end.

Declare Scope job_scope.
Notation "x <- m ;; k" := (bind m (fun x => k))
  (at level 61, m at next level, right associativity) : job_scope.
Open Scope job_scope.

Module Job.

(** The operations of the class [Job] that the statements below are
    about.  An id is a number: the argument [id : Z] stands for the
    number [Js.Num id].  Each statement is the one the source
    writes: [Db.IdEq 1] is its [WHERE id = $1], and the SET clause of
    [update] is the text the builder returned. *)

(** [new NotFoundError(`No job: ${id}`)]. *)
Definition no_job (id : Z) : error :=
  NotFoundError ("No job: " ++ Js.to_string (Js.Num id)).

(** [SELECT ... FROM jobs ORDER BY company_handle]; returns
    [jobsRes.rows]. *)
Definition findAll : M (list Db.job) :=
  jobsRes <- db_query (Db.Select (Db.mkSelect [] true)) [] ;;
  ret (Db.rows jobsRes).

(** [SELECT ... FROM jobs WHERE id = $1] with [[id]]; throws when
    [jobRes.rows[0]] is undefined. *)
Definition get (id : Z) : M Db.job :=
  jobRes <- db_query (Db.Select (Db.mkSelect [Db.IdEq 1] false))
                     [Js.Num id] ;;
  match Db.rows jobRes with
  | [] => throw (no_job id)
  | job :: _ => ret job
  end.

(** [UPDATE jobs SET ${setCols} WHERE id = ${IDVarIdx} RETURNING ...]
    with [[...values, id]]; throws when [result.rows[0]] is undefined. *)
Definition update (id : Z) (data : Js.obj) : M Db.job :=
  frag <- lift (sqlForPartialUpdate
                  data [("companyHandle", Js.Str "company_handle")]) ;;
  let IDVarIdx := "$" ++ Js.string_of_nat (length (values frag) + 1) in
  let querySql := Db.Update (setCols frag) IDVarIdx in
  result <- db_query querySql (values frag ++ [Js.Num id])%list ;;
  (* console.log(job) writes to the console and changes nothing here *)
  match Db.rows result with
  | [] => throw (no_job id)
  | job :: _ => ret job
  end.

(** [SELECT * FROM jobs WHERE id = $1], a throw when [exists.rowCount]
    is zero, then [DELETE FROM jobs WHERE id = $1]; returns undefined. *)
Definition remove (id : Z) : M unit :=
  exists_ <- db_query (Db.Select (Db.mkSelect [Db.IdEq 1] false))
                      [Js.Num id] ;;
  if (Db.rowCount exists_ =? 0)%nat then throw (no_job id)
  else
    result <- db_query (Db.Delete [Db.IdEq 1]) [Js.Num id] ;;
    ret tt.

(** [findFiltered(filters = {})]: [None] is a call without argument.
    The two arrays grow by [push]; a pushed condition takes the length of
    [queryValues] as its placeholder.  [query] starts as the [SELECT]
    without clauses, gets the WHERE clause if a condition was pushed, and
    then [ORDER BY company_handle]. *)
Definition findFiltered (filters : option Js.obj) : M (list Db.job) :=
  let filters := match filters with Some f => f | None => [] end in
  let query := Db.mkSelect [] false in
  let whereExpressions : list Db.cond := [] in
  let queryValues : list Js.value := [] in
  let title := Js.get filters "title" in
  let minSalary := Js.get filters "minSalary" in
  let hasEquity := Js.get filters "hasEquity" in
  let '(whereExpressions, queryValues) :=
    match title with
    | Js.Undefined => (whereExpressions, queryValues)
    | _ =>
        let queryValues :=
          (queryValues ++ [Js.Str ("%" ++ Js.to_string title ++ "%")])%list in
        ((whereExpressions ++ [Db.TitleILike (length queryValues)])%list,
         queryValues)
    end in
  let '(whereExpressions, queryValues) :=
    match minSalary with
    | Js.Undefined => (whereExpressions, queryValues)
    | _ =>
        let queryValues := (queryValues ++ [minSalary])%list in
        ((whereExpressions ++ [Db.SalaryGe (length queryValues)])%list,
         queryValues)
    end in
  let '(whereExpressions, queryValues) :=
    if Js.truthy hasEquity then
      let queryValues := (queryValues ++ [Js.Num 0])%list in
      ((whereExpressions ++ [Db.EquityGt (length queryValues)])%list,
       queryValues)
    else (whereExpressions, queryValues) in
  let query :=
    if (0 <? length whereExpressions)%nat
    then Db.mkSelect whereExpressions (Db.order_by_company_handle query)
    else query in
  let query := Db.mkSelect (Db.where_ query) true in
  jobsRes <- db_query (Db.Select query) queryValues ;;
  ret (Db.rows jobsRes).

(** [create({ title, salary, equity, companyHandle })]: the [INSERT]
    with [[title, salary, equity, companyHandle]]; returns
    [result.rows[0]], which is undefined ([None]) on an empty answer. *)
Definition create (data : Js.obj) (d : Db.sequenced)
  : result (option Db.job) * Db.sequenced :=
  let title := Js.get data "title" in
  let salary := Js.get data "salary" in
  let equity := Js.get data "equity" in
  let companyHandle := Js.get data "companyHandle" in
  match Db.exec_insert [title; salary; equity; companyHandle] d with
  | (Ok result, d') => (Ok (hd_error (Db.rows result)), d')
  | (Err e, d') => (Err e, d')
  end.

(** [SELECT ... FROM jobs WHERE company_handle = $1] with
    [[companyHandle]]; returns [jobsRes.rows]. *)
Definition findByCompanyHandle (companyHandle : Js.value)
  : M (list Db.job) :=
  jobsRes <- db_query (Db.Select (Db.mkSelect [Db.CompanyHandleEq 1] false))
                      [companyHandle] ;;
  ret (Db.rows jobsRes).

End Job.

(* ================================================================== *)
(** * A store to run the operations on *)
(* ================================================================== *)

(** The three jobs and the three companies the tests of the model
    insert (equities 0, 0.04 and 0.06). *)
Definition job1 : Db.job :=
  Db.mkJob 1 "title1" (Some 50000%Z) (Some (Db.mkNumeric 0 0)) "c1".

Definition job2 : Db.job :=
  Db.mkJob 2 "title2" (Some 60000%Z) (Some (Db.mkNumeric 4 2)) "c1".

Definition job3 : Db.job :=
  Db.mkJob 3 "title3" (Some 70000%Z) (Some (Db.mkNumeric 6 2)) "c2".

Definition fixture : Db.store :=
  Db.mkStore [job1; job2; job3] ["c1"; "c2"; "c3"].

(** The job the test of [create] makes, which no application refers to,
    after the three of the tests. *)
Definition new_job : Db.job :=
  Db.mkJob 4 "New Job" (Some 50000%Z) (Some (Db.mkNumeric 5 2)) "c1".

Definition with_new_job : Db.store :=
  Db.mkStore [job1; job2; job3; new_job] ["c1"; "c2"; "c3"].

(** The tables the repeated examples leave: job 2 with a new title and
    no salary, and job 1 with a new title, each written after the rows
    the update did not touch. *)
Definition job2_updated : Db.job :=
  Db.mkJob 2 "Updated Job" None (Some (Db.mkNumeric 4 2)) "c1".

Definition job1_renamed : Db.job :=
  Db.mkJob 1 "Job 1 new" (Some 50000%Z) (Some (Db.mkNumeric 0 0)) "c1".

Definition fixture_job2_updated : Db.store :=
  Db.mkStore [job1; job3; job2_updated] ["c1"; "c2"; "c3"].

Definition fixture_job1_renamed : Db.store :=
  Db.mkStore [job2; job3; job1_renamed] ["c1"; "c2"; "c3"].

(* ================================================================== *)
(** * The vocabulary of the statements *)
(* ================================================================== *)

(** ** Columns *)

(** The column a key is written under with the mapping [jsToSql]: the
    interpolated expression of the builder's template. *)
Definition column (jsToSql : Js.obj) (key : string) : string :=
  Js.to_string (Js.or (Js.get jsToSql key) (Js.Str key)).

(** The mapping [update] passes to the builder, and the column a key of
    its data is written under. *)
Definition jsToSql_job : Js.obj :=
  [("companyHandle", Js.Str "company_handle")].

Definition column_of (key : string) : string := column jsToSql_job key.

(** The columns and placeholders the builder writes for [keys], the
    first of them at index [idx]. *)
Definition written_from (jsToSql : Js.obj) (idx : nat) (keys : list string)
  : list (string * nat) :=
  Js.map_from (fun key i => (column jsToSql key, i + 1)) idx keys.

(** Text without a double quote. *)
Fixpoint no_dquote (s : string) : bool :=
  match s with
  | EmptyString => true
  | String c s' => negb (c =? ascii_of_nat 34)%char && no_dquote s'
  end.

(** Text that does not begin with a digit. *)
Definition no_leading_digit (s : string) : Prop :=
  match s with
  | EmptyString => True
  | String c _ => Db.digit_of c = None
  end.

(** ** Rows *)

(** Ascending order of company handles. *)
Definition by_handle (a b : Db.job) : Prop :=
  (Db.companyHandle a <=? Db.companyHandle b) = true.

(** Whether a row has the id [i]. *)
Definition has_id (i : Z) (j : Db.job) : bool := (Db.id j =? i)%Z.

(** ** Updates the store accepts *)

(** The data of an update read key by key, each value at the type of the
    column its key is written under: [None] when a key names no column
    of [jobs] or a value is not of its column's type. *)
Fixpoint typed_update (data : Js.obj) : option (list Db.assignment) :=
  match data with
  | [] => Some []
  | (key, v) :: rest =>
      match Db.bind_column (column_of key) v, typed_update rest with
      | Some a, Some l => Some (a :: l)
      | _, _ => None
      end
  end.

(** What an assignment leaves in its column. *)
Definition written (a : Db.assignment) : Db.cell :=
  match a with
  | Db.SetId (Some z) => Db.CInteger z
  | Db.SetTitle (Some t) => Db.CText t
  | Db.SetSalary (Some z) => Db.CInteger z
  | Db.SetEquity (Some q) => Db.CNumeric q
  | Db.SetCompanyHandle (Some t) => Db.CText t
  | _ => Db.CNull
  end.

(** What [update] comes to once the store has read the statement as the
    assignments [asg] on the rows with the id. *)
Definition apply_update (id : Z) (asg : list Db.assignment) (s : Db.store)
  : result Db.job * Db.store :=
  if Db.distinct (map Db.target asg) then
    match Db.rewrite_rows s (has_id id) asg (Db.jobs s) with
    | Some versions =>
        let jobs' :=
          (filter (fun j => negb (has_id id j)) (Db.jobs s) ++ versions)%list
        in
        if existsb (String.eqb "id") (map Db.target asg)
           && negb (Db.keys_unique versions jobs')
        then (Err (StoreError "duplicate key"), s)
        else
          match versions with
          | [] => (Err (Job.no_job id), Db.mkStore jobs' (Db.companies s))
          | job :: _ => (Ok job, Db.mkStore jobs' (Db.companies s))
          end
    | None => (Err (StoreError "constraint violation"), s)
    end
  else (Err (StoreError "multiple assignments to same column"), s).

(** ** Filters, in the words of the specification *)

(** [minSalary], when it is a number. *)
Definition minSalary_of (filters : Js.obj) : option Z :=
  match Js.get filters "minSalary" with
  | Js.Num m => Some m
  | _ => None
  end.

(** The title matches the pattern [%value%] without regard to case. *)
Definition title_like (v : string) (j : Db.job) : bool :=
  Db.ilike (Db.title j) ("%" ++ v ++ "%").

(** The salary is not null and at least [m]. *)
Definition salary_at_least (m : Z) (j : Db.job) : bool :=
  match Db.salary j with
  | Some x => (m <=? x)%Z
  | None => false
  end.

(** The equity is not null and strictly above zero. *)
Definition positive_equity (j : Db.job) : bool :=
  match Db.equity j with
  | Some e => (0 <? Db.mantissa e)%Z
  | None => false
  end.

(** The conjunction of the filters present: a filter left out, and a
    falsy [hasEquity], let every row pass. *)
Definition satisfies (filters : Js.obj) (j : Db.job) : bool :=
  match Js.get filters "title" with
  | Js.Undefined => true
  | v => title_like (Js.to_string v) j
  end
  && match minSalary_of filters with
     | Some m => salary_at_least m j
     | None => true
     end
  && (if Js.truthy (Js.get filters "hasEquity") then positive_equity j
      else true).

(** The text [t] has the text [v] somewhere in it. *)
Definition contains (t v : string) : Prop := exists a b, t = a ++ v ++ b.

(** The characters [LIKE] reads specially. *)
Definition wildcard (c : ascii) : bool :=
  ((c =? "%") || (c =? "_") || (c =? "\"))%char.

Fixpoint no_wildcard (v : string) : bool :=
  match v with
  | EmptyString => true
  | String c v' => negb (wildcard c) && no_wildcard v'
  end.

(** ** Reading, rewriting and creating rows *)

(** The title filter as [findFiltered] reads it: absent when the value is
    undefined, otherwise the text of the value. *)
Definition title_text (v : Js.value) : option string :=
  match v with
  | Js.Undefined => None
  | _ => Some (Js.to_string v)
  end.

(** Two filters objects that [findFiltered] cannot tell apart. *)
Definition same_filters (f g : Js.obj) : Prop :=
  title_text (Js.get f "title") = title_text (Js.get g "title")
  /\ Js.get f "minSalary" = Js.get g "minSalary"
  /\ Js.truthy (Js.get f "hasEquity") = Js.truthy (Js.get g "hasEquity").

(** A column of the SET clause with the parameter its placeholder names. *)
Definition resolve (params : list Js.value) (a : string * nat)
  : string * option Js.value :=
  (fst a, Db.param params (snd a)).

(** A key of the data with its value, under the column it is written
    to. *)
Definition as_column (jsToSql : Js.obj) (kv : string * Js.value)
  : string * option Js.value :=
  (column jsToSql (fst kv), Some (snd kv)).

(** Every id of the table is below the next id of the generator. *)
Definition ahead (d : Db.sequenced) : Prop :=
  forall j, In j (Db.jobs (Db.table d)) -> (Db.id j < Db.next_id d)%Z.

(** Whether a row belongs to the company [h]. *)
Definition of_company (h : string) (j : Db.job) : bool :=
  Db.companyHandle j =? h.

(** [x'] is the new version of the row [x] under the assignments [asg]:
    the row with the assignments made, which meets the constraints of
    the store. *)
Definition version (s : Db.store) (asg : list Db.assignment)
  (x x' : Db.job) : Prop :=
  Db.assign_all asg x = Some x' /\ Db.row_ok s x' = true.

(** The row [x'] differs from the row [x] at most in the columns that
    the keys of [data] are written to, and has null in the column of
    every key that [data] gives [null]. *)
Definition changes_only (data : Js.obj) (x x' : Db.job) : Prop :=
  (forall c, ~ In c (map column_of (Js.keys data)) ->
             Db.field c x' = Db.field c x)
  /\ (forall key, In (key, Js.Null) data ->
                  Db.field (column_of key) x' = Db.CNull).

(** The rows of the table that do not have the id [i]. *)
Definition others (i : Z) (l : list Db.job) : list Db.job :=
  filter (fun j => negb (has_id i j)) l.

(* ================================================================== *)
(** * Properties of [sqlForPartialUpdate] *)
(* ================================================================== *)

Section Fragments.

Variable jsToSql : Js.obj.

Lemma map_from_length {A B : Type} (f : A -> nat -> B) (l : list A) :
  forall i, length (Js.map_from f i l) = length l.
Proof.
  induction l as [| x rest IH]; intro i; simpl.
  - reflexivity.
  - now rewrite IH.
Qed.

Lemma nth_error_map_from {A B : Type} (f : A -> nat -> B) (l : list A) :
  forall i k x,
    nth_error l k = Some x ->
    nth_error (Js.map_from f i l) k = Some (f x (i + k)).
Proof.
  induction l as [| y rest IH]; intros i k x Hk.
  - destruct k; discriminate.
  - destruct k as [| k]; simpl in *.
    + injection Hk as ->. now rewrite Nat.add_0_r.
    + rewrite (IH (S i) k x Hk). f_equal. f_equal. lia.
Qed.

Lemma nth_error_keys (data : Js.obj) k key v :
  nth_error data k = Some (key, v) ->
  nth_error (Js.keys data) k = Some key.
Proof.
  intro H. unfold Js.keys. now rewrite nth_error_map, H.
Qed.

(** On a non-empty object the builder does not throw. *)
Lemma sqlForPartialUpdate_nonempty (data : Js.obj) :
  data <> [] ->
  sqlForPartialUpdate data jsToSql
  = Ok {| setCols :=
            Js.join ", " (Js.map_idx (col_fragment jsToSql) (Js.keys data));
          values := Js.values data |}.
Proof.
  intro Hne. destruct data as [| p rest]; [contradiction | reflexivity].
Qed.

(** The column a key is written under when it has an own entry in
    [jsToSql]: the own entry hides whatever the prototype has. *)
Lemma column_own_entry key mapped :
  Js.own_get jsToSql key = Some mapped ->
  Js.to_string (Js.or (Js.get jsToSql key) (Js.Str key))
  = if Js.truthy mapped then Js.to_string mapped else key.
Proof.
  intro H. unfold Js.get, Js.or. rewrite H.
  now destruct (Js.truthy mapped).
Qed.

(** The column a key is written under when neither [jsToSql] nor
    [Object.prototype] has a property of that name. *)
Lemma column_unknown_key key :
  Js.own_get jsToSql key = None ->
  Js.own_get Js.object_prototype key = None ->
  Js.to_string (Js.or (Js.get jsToSql key) (Js.Str key)) = key.
Proof.
  intros H1 H2. unfold Js.get, Js.or. now rewrite H1, H2.
Qed.

(** The fragment at each position of the builder's output. *)
Lemma sqlForPartialUpdate_nth (data : Js.obj) k key v :
  nth_error data k = Some (key, v) ->
  sqlForPartialUpdate data jsToSql
  = Ok {| setCols :=
            Js.join ", " (Js.map_idx (col_fragment jsToSql) (Js.keys data));
          values := map snd data |}
  /\ nth_error (Js.map_idx (col_fragment jsToSql) (Js.keys data)) k
     = Some (col_fragment jsToSql key k).
Proof.
  intro Hk. split.
  - apply sqlForPartialUpdate_nonempty. intros ->. destruct k; discriminate.
  - unfold Js.map_idx.
    now rewrite (nth_error_map_from _ _ 0 k key (nth_error_keys _ _ _ _ Hk)).
Qed.

End Fragments.

(** C1.  For a non-empty [dataToUpdate] and any [jsToSql], the builder
    returns the fragments joined by a comma (and a space), one fragment
    per key and in the order of the keys; the fragment at position [k]
    (counting from zero) is the quoted column of the key at that position
    followed by [=$] and the number [k + 1]; and the values are those of
    [dataToUpdate] in the same order. *)
Theorem sqlForPartialUpdate_fragments :
  forall (dataToUpdate jsToSql : Js.obj),
    dataToUpdate <> [] ->
    exists cols : list string,
      sqlForPartialUpdate dataToUpdate jsToSql
      = Ok {| setCols := Js.join ", " cols;
              values := map snd dataToUpdate |}
      /\ length cols = length (Js.keys dataToUpdate)
      /\ forall k key,
           nth_error (Js.keys dataToUpdate) k = Some key ->
           nth_error cols k
           = Some (dquote
                   ++ Js.to_string
                        (Js.or (Js.get jsToSql key) (Js.Str key))
                   ++ dquote ++ "=$" ++ Js.string_of_nat (k + 1)).
Proof.
  intros data jsToSql Hne.
  exists (Js.map_idx (col_fragment jsToSql) (Js.keys data)).
  split; [| split].
  - now apply sqlForPartialUpdate_nonempty.
  - apply map_from_length.
  - intros k key Hk. unfold Js.map_idx.
    now rewrite (nth_error_map_from _ _ 0 k key Hk).
Qed.

Lemma sqlForPartialUpdate_fragments_witness :
  exists cols : list string,
    sqlForPartialUpdate
      [("firstName", Js.Str "Aliya"); ("age", Js.Num 32)]
      [("firstName", Js.Str "first_name")]
    = Ok {| setCols := Js.join ", " cols;
            values := [Js.Str "Aliya"; Js.Num 32] |}
    /\ length cols = 2
    /\ forall k key,
         nth_error ["firstName"; "age"] k = Some key ->
         nth_error cols k
         = Some (dquote
                 ++ Js.to_string
                      (Js.or (Js.get [("firstName", Js.Str "first_name")] key)
                             (Js.Str key))
                 ++ dquote ++ "=$" ++ Js.string_of_nat (k + 1)).
Proof.
  apply (sqlForPartialUpdate_fragments
           [("firstName", Js.Str "Aliya"); ("age", Js.Num 32)]
           [("firstName", Js.Str "first_name")]).
  discriminate.
Defined.

(** C9, at the input where the code departs from it: the key
    [constructor] has no entry in the empty [jsToSql], yet the lookup
    finds the function [Object] on the prototype, which is truthy, and the
    fragment names the text of that function instead of the key. *)
Theorem sqlForPartialUpdate_inherited_key :
  Js.own_get [] "constructor" = None
  /\ sqlForPartialUpdate [("constructor", Js.Num 1)] []
     = Ok {| setCols := dquote ++ "function Object() { [native code] }"
                        ++ dquote ++ "=$1";
             values := [Js.Num 1] |}
  /\ sqlForPartialUpdate [("constructor", Js.Num 1)] []
     <> Ok {| setCols := dquote ++ "constructor" ++ dquote ++ "=$1";
              values := [Js.Num 1] |}.
Proof.
  split; [reflexivity | split; [reflexivity | discriminate]].
Qed.

(** X1.  A key that names no property of [jsToSql], own or inherited, is
    written under its own name, unchanged: no character of it is
    escaped. *)
Lemma sqlForPartialUpdate_unknown_key :
  forall (dataToUpdate jsToSql : Js.obj) k key v,
    nth_error dataToUpdate k = Some (key, v) ->
    Js.own_get jsToSql key = None ->
    Js.own_get Js.object_prototype key = None ->
    exists cols : list string,
      sqlForPartialUpdate dataToUpdate jsToSql
      = Ok {| setCols := Js.join ", " cols;
              values := map snd dataToUpdate |}
      /\ nth_error cols k
         = Some (dquote ++ key ++ dquote ++ "=$" ++ Js.string_of_nat (k + 1)).
Proof.
  intros data jsToSql k key v Hk Hown Hproto.
  destruct (sqlForPartialUpdate_nth jsToSql data k key v Hk) as [Heq Hnth].
  eexists. split; [exact Heq |].
  rewrite Hnth. unfold col_fragment.
  now rewrite (column_unknown_key jsToSql key Hown Hproto).
Qed.

Lemma sqlForPartialUpdate_unknown_key_witness :
  exists cols : list string,
    sqlForPartialUpdate
      [("lastName", Js.Str "Smith"); ("age", Js.Num 40)]
      [("firstName", Js.Str "first_name")]
    = Ok {| setCols := Js.join ", " cols;
            values := [Js.Str "Smith"; Js.Num 40] |}
    /\ nth_error cols 0
       = Some (dquote ++ "lastName" ++ dquote ++ "=$1").
Proof.
  apply (sqlForPartialUpdate_unknown_key
           [("lastName", Js.Str "Smith"); ("age", Js.Num 40)]
           [("firstName", Js.Str "first_name")]
           0 "lastName" (Js.Str "Smith"));
    reflexivity.
Defined.

(** C10.  When [jsToSql] has an own entry for a key, the truthiness of
    the mapped value decides the column: a falsy value (the empty string,
    [0], [null], [undefined], [false]) makes the builder fall back to the
    key's own name, a truthy one is written in its place. *)
Theorem sqlForPartialUpdate_falsy_mapping :
  forall (dataToUpdate jsToSql : Js.obj) k key v mapped,
    nth_error dataToUpdate k = Some (key, v) ->
    Js.own_get jsToSql key = Some mapped ->
    exists cols : list string,
      sqlForPartialUpdate dataToUpdate jsToSql
      = Ok {| setCols := Js.join ", " cols;
              values := map snd dataToUpdate |}
      /\ nth_error cols k
         = Some (dquote
                 ++ (if Js.truthy mapped then Js.to_string mapped else key)
                 ++ dquote ++ "=$" ++ Js.string_of_nat (k + 1)).
Proof.
  intros data jsToSql k key v mapped Hk Hown.
  destruct (sqlForPartialUpdate_nth jsToSql data k key v Hk) as [Heq Hnth].
  eexists. split; [exact Heq |].
  rewrite Hnth. unfold col_fragment.
  now rewrite (column_own_entry jsToSql key mapped Hown).
Qed.

Lemma sqlForPartialUpdate_falsy_mapping_witness :
  exists cols : list string,
    sqlForPartialUpdate
      [("age", Js.Num 32); ("firstName", Js.Str "Aliya")]
      [("firstName", Js.Str "")]
    = Ok {| setCols := Js.join ", " cols;
            values := [Js.Num 32; Js.Str "Aliya"] |}
    /\ nth_error cols 1
       = Some (dquote ++ "firstName" ++ dquote ++ "=$2").
Proof.
  apply (sqlForPartialUpdate_falsy_mapping
           [("age", Js.Num 32); ("firstName", Js.Str "Aliya")]
           [("firstName", Js.Str "")]
           1 "firstName" (Js.Str "Aliya") (Js.Str ""));
    reflexivity.
Defined.

(** C3.  Whatever [jsToSql] is, the builder throws [BadRequestError] on
    an empty object; and [update] on empty data throws that error before
    any statement is issued, the store being left as it was. *)
Theorem empty_update_is_bad_request :
  (forall jsToSql : Js.obj,
      sqlForPartialUpdate [] jsToSql = Err (BadRequestError "No data"))
  /\ (forall (id : Z) (s : Db.store),
         Job.update id [] s = (Err (BadRequestError "No data"), s)).
Proof.
  split; intros; reflexivity.
Qed.

(* ================================================================== *)
(** * Numbers written by the code are read back by the store *)
(* ================================================================== *)

Section ReadBack.

Lemma append_empty_r (s : string) : s ++ "" = s.
Proof.
  induction s as [| c s IH]; simpl; [reflexivity | now rewrite IH].
Qed.

Lemma append_assoc (a b c : string) : (a ++ b) ++ c = a ++ (b ++ c).
Proof.
  induction a as [| x a IH]; simpl; [reflexivity | now rewrite IH].
Qed.

Lemma read_uint_no_digit (s : string) :
  no_leading_digit s -> Db.read_uint s = (Nil, s).
Proof.
  destruct s as [| c s]; simpl; intro H.
  - reflexivity.
  - now rewrite H.
Qed.

Lemma read_uint_string_of_uint (d : uint) (rest : string) :
  no_leading_digit rest ->
  Db.read_uint (NilEmpty.string_of_uint d ++ rest) = (d, rest).
Proof.
  intro Hrest.
  induction d; simpl;
    try (rewrite IHd; reflexivity).
  now apply read_uint_no_digit.
Qed.

Lemma parse_uint_string_of_uint (d : uint) :
  d <> Nil -> Db.parse_uint (NilEmpty.string_of_uint d) = Some d.
Proof.
  intro Hd. unfold Db.parse_uint.
  rewrite <- (append_empty_r (NilEmpty.string_of_uint d)) at 1.
  rewrite read_uint_string_of_uint by exact I.
  destruct d; try reflexivity. contradiction.
Qed.

Lemma to_uint_nonnil (n : nat) : Nat.to_uint n <> Nil.
Proof.
  rewrite <- (DecimalNat.Unsigned.of_to n) at 1.
  rewrite DecimalNat.Unsigned.to_of.
  apply DecimalFacts.unorm_nonnil.
Qed.

(** The placeholder the code writes for position [n] is read as [n]. *)
Lemma parse_placeholder_string_of_nat (n : nat) :
  Db.parse_placeholder ("$" ++ Js.string_of_nat n) = Some n.
Proof.
  unfold Js.string_of_nat. simpl.
  rewrite parse_uint_string_of_uint by apply to_uint_nonnil.
  simpl. now rewrite DecimalNat.Unsigned.of_to.
Qed.

Lemma parse_integer_unsigned (d : uint) :
  d <> Nil ->
  Db.parse_integer (NilEmpty.string_of_uint d) = Some (Z.of_uint d).
Proof.
  intro Hd.
  assert (H : Db.parse_integer (NilEmpty.string_of_uint d)
              = option_map Z.of_uint
                  (Db.parse_uint (NilEmpty.string_of_uint d)))
    by (destruct d; try contradiction; reflexivity).
  now rewrite H, parse_uint_string_of_uint.
Qed.

(** An integer sent as text is read as that integer. *)
Lemma parse_integer_string_of_Z (z : Z) :
  Db.parse_integer (Js.string_of_Z z) = Some z.
Proof.
  unfold Js.string_of_Z.
  destruct z as [| p | p]; simpl.
  - reflexivity.
  - pose proof (DecimalPos.Unsigned.to_uint_nonnil p) as Hp.
    unfold NilZero.string_of_uint.
    destruct (Pos.to_uint p) eqn:E; try contradiction;
      rewrite <- E; rewrite parse_integer_unsigned by (rewrite E; discriminate);
      unfold Z.of_uint; now rewrite DecimalPos.Unsigned.of_to.
  - pose proof (DecimalPos.Unsigned.to_uint_nonnil p) as Hp.
    unfold NilZero.string_of_uint.
    destruct (Pos.to_uint p) eqn:E; try contradiction;
      rewrite <- E; rewrite parse_uint_string_of_uint by (rewrite E; discriminate);
      simpl; unfold Z.of_uint; now rewrite DecimalPos.Unsigned.of_to.
Qed.

Lemma read_integer_string_of_Z (z : Z) :
  Db.read_integer (Js.string_of_Z z)
  = if Db.in_int4 z then Some z else None.
Proof.
  unfold Db.read_integer. now rewrite parse_integer_string_of_Z.
Qed.

(** Up to [max_safe_integer] a number is written with all its digits. *)
Lemma to_string_Num_safe (z : Z) :
  (Z.abs z <= Js.max_safe_integer)%Z ->
  Js.to_string (Js.Num z) = Js.string_of_Z z.
Proof.
  intro H. unfold Js.to_string, Js.number_to_string.
  apply Z.leb_le in H. now rewrite H.
Qed.

Lemma in_int4_bounds (z : Z) :
  Db.in_int4 z = true <-> (-2147483648 <= z <= 2147483647)%Z.
Proof.
  unfold Db.in_int4, Db.int4_min, Db.int4_max.
  rewrite andb_true_iff, !Z.leb_le. tauto.
Qed.

Lemma in_int4_safe (z : Z) :
  Db.in_int4 z = true -> (Z.abs z <= Js.max_safe_integer)%Z.
Proof.
  intro H. apply in_int4_bounds in H. unfold Js.max_safe_integer. lia.
Qed.

Lemma to_string_Num_int4 (z : Z) :
  Db.in_int4 z = true -> Js.to_string (Js.Num z) = Js.string_of_Z z.
Proof. intro H. apply to_string_Num_safe. now apply in_int4_safe. Qed.

(** A double above [max_safe_integer] is above it as an integer. *)
Lemma round_double_small (x : Z) :
  (0 <= x < 9007199254740992)%Z -> Js.round_double x = x.
Proof.
  intro H. unfold Js.round_double.
  assert (He : (Z.log2 x - 52 <= 0)%Z).
  { destruct (Z.eq_dec x 0) as [-> | Hx]; [simpl; lia |].
    assert (Z.log2 x < 53)%Z; [| lia].
    apply Z.log2_lt_pow2; [lia |].
    change (2 ^ 53)%Z with 9007199254740992%Z. lia. }
  apply Z.leb_le in He. now rewrite He.
Qed.

Lemma round_double_large (a : Z) :
  (9007199254740992 <= a)%Z -> (9007199254740992 <= Js.round_double a)%Z.
Proof.
  intro H. unfold Js.round_double.
  assert (Hlog : (53 <= Z.log2 a)%Z).
  { change 53%Z with (Z.log2 9007199254740992). now apply Z.log2_le_mono. }
  destruct (Z.log2_spec a) as [Hlo _]; [lia |].
  set (e := (Z.log2 a - 52)%Z) in *.
  assert (He : (1 <= e)%Z) by (unfold e; lia).
  destruct (Z.leb_spec e 0) as [Hle | _]; [lia |].
  cbv zeta.
  rewrite !Z.shiftl_mul_pow2, Z.shiftr_div_pow2 by lia.
  assert (Hpow : (2 ^ Z.log2 a = 4503599627370496 * 2 ^ e)%Z).
  { replace (Z.log2 a) with (52 + e)%Z by (unfold e; lia).
    rewrite Z.pow_add_r by lia. reflexivity. }
  assert (Hp : (2 <= 2 ^ e)%Z).
  { change 2%Z with (2 ^ 1)%Z at 1. apply Z.pow_le_mono_r; lia. }
  assert (Hq : (4503599627370496 <= a / 2 ^ e)%Z).
  { apply Z.div_le_lower_bound; lia. }
  set (q := (a / 2 ^ e)%Z) in *.
  assert (Hq' : (q <= (if (a - q * 2 ^ e <? 1 * 2 ^ (e - 1))%Z then q
                       else if (1 * 2 ^ (e - 1) <? a - q * 2 ^ e)%Z
                            then q + 1
                            else if Z.even q then q else q + 1))%Z).
  { destruct (a - q * 2 ^ e <? 1 * 2 ^ (e - 1))%Z; [lia |].
    destruct (1 * 2 ^ (e - 1) <? a - q * 2 ^ e)%Z; [lia |].
    destruct (Z.even q); lia. }
  nia.
Qed.

Lemma shortest_large (fuel : nat) :
  forall k n v,
    (9007199254740992 <= v)%Z ->
    (9007199254740992 <= Js.shortest fuel k n v)%Z.
Proof.
  induction fuel as [| fuel IH]; intros k n v Hv; [exact Hv |].
  cbn [Js.shortest].
  set (p := (10 ^ Z.of_nat (n - k))%Z).
  assert (Hp : (0 < p)%Z) by (apply Z.pow_pos_nonneg; lia).
  assert (Hlo : (0 <= v / p * p)%Z).
  { apply Z.mul_nonneg_nonneg; [| lia]. apply Z.div_pos; lia. }
  assert (Hcand : forall x, (0 <= x)%Z -> (Js.round_double x =? v)%Z = true ->
                            (9007199254740992 <= x)%Z).
  { intros x Hx E. apply Z.eqb_eq in E.
    destruct (Z.lt_ge_cases x 9007199254740992) as [Hs | Hl]; [| exact Hl].
    rewrite round_double_small in E by lia. lia. }
  cbv zeta.
  destruct (Js.round_double (v / p * p) =? v)%Z eqn:E1;
    destruct (Js.round_double (v / p * p + p) =? v)%Z eqn:E2;
    cbn [andb].
  - destruct (v - v / p * p <? v / p * p + p - v)%Z; [apply Hcand; auto |].
    destruct (v / p * p + p - v <? v - v / p * p)%Z;
      [apply Hcand; auto; lia |].
    destruct (Z.even (v / p)); apply Hcand; auto; lia.
  - apply Hcand; auto.
  - apply Hcand; auto; lia.
  - now apply IH.
Qed.

(** Text that goes on after its first character with one that is no
    digit is no integer. *)
Lemma parse_uint_stop (d c : ascii) (rest : string) :
  Db.digit_of c = None ->
  Db.parse_uint (String d (String c rest)) = None.
Proof.
  intro Hc. unfold Db.parse_uint. cbn [Db.read_uint]. rewrite Hc.
  unfold Db.digit_of.
  repeat match goal with
         | |- context [(d =? ?k)%char] => destruct (d =? k)%char
         end;
    reflexivity.
Qed.

Lemma parse_uint_one_stop (c : ascii) (rest : string) :
  Db.digit_of c = None -> Db.parse_uint (String c rest) = None.
Proof.
  intro Hc. unfold Db.parse_uint. cbn [Db.read_uint]. now rewrite Hc.
Qed.

Lemma parse_integer_stop (d c : ascii) (rest : string) :
  Db.digit_of c = None ->
  Db.parse_integer (String d (String c rest)) = None.
Proof.
  intro Hc.
  destruct (Ascii.eqb_spec d "-") as [-> | Hd].
  - cbn [Db.parse_integer]. now rewrite parse_uint_one_stop.
  - assert (E : Db.parse_integer (String d (String c rest))
                = option_map Z.of_uint
                    (Db.parse_uint (String d (String c rest)))).
    { destruct d as [[] [] [] [] [] [] [] []]; try reflexivity.
      now contradiction Hd. }
    now rewrite E, parse_uint_stop.
Qed.

Lemma parse_integer_exponential (w : Z) :
  Db.parse_integer (Js.exponential w) = None
  /\ Db.parse_integer ("-" ++ Js.exponential w) = None.
Proof.
  unfold Js.exponential.
  destruct (Js.strip_zeros (Js.string_of_Z w)) as [| d [| c rest]].
  - split; reflexivity.
  - split.
    + now apply parse_integer_stop.
    + cbn [append Db.parse_integer]. now rewrite parse_uint_stop.
  - split.
    + now apply parse_integer_stop.
    + cbn [append Db.parse_integer]. now rewrite parse_uint_stop.
Qed.

Lemma string_of_Z_opp (w : Z) :
  (0 < w)%Z -> "-" ++ Js.string_of_Z w = Js.string_of_Z (- w).
Proof. destruct w; try lia. reflexivity. Qed.

(** Above [max_safe_integer] a number is not written as an integer of
    the store. *)
Lemma read_integer_magnitude (a : Z) :
  (9007199254740992 <= a)%Z ->
  Db.read_integer (Js.magnitude_to_string a) = None
  /\ Db.read_integer ("-" ++ Js.magnitude_to_string a) = None.
Proof.
  intro Ha. unfold Js.magnitude_to_string.
  pose proof (shortest_large 17 1 (Js.digits (Js.round_double a))
                (Js.round_double a) (round_double_large a Ha)) as Hw.
  set (w := Js.shortest 17 1 (Js.digits (Js.round_double a))
              (Js.round_double a)) in *.
  destruct (w <? 10 ^ 21)%Z.
  - rewrite string_of_Z_opp by lia.
    rewrite !read_integer_string_of_Z.
    assert (E1 : Db.in_int4 w = false).
    { destruct (Db.in_int4 w) eqn:E; [| reflexivity].
      apply in_int4_bounds in E. lia. }
    assert (E2 : Db.in_int4 (- w) = false).
    { destruct (Db.in_int4 (- w)) eqn:E; [| reflexivity].
      apply in_int4_bounds in E. lia. }
    now rewrite E1, E2.
  - unfold Db.read_integer.
    destruct (parse_integer_exponential w) as [E1 E2].
    now rewrite E1, E2.
Qed.

(** A number sent to an integer column is read as the integer it is when
    the column holds it, and is refused otherwise. *)
Lemma as_integer_Num (z : Z) :
  Db.as_integer (Js.Num z)
  = if Db.in_int4 z then Some (Some z) else None.
Proof.
  unfold Db.as_integer, Db.param_text, Js.to_string, Js.number_to_string.
  destruct (Z.leb_spec (Z.abs z) Js.max_safe_integer) as [Hs | Hu].
  - rewrite read_integer_string_of_Z. now destruct (Db.in_int4 z).
  - assert (E : Db.in_int4 z = false).
    { destruct (Db.in_int4 z) eqn:E; [| reflexivity].
      apply in_int4_safe in E. lia. }
    rewrite E. unfold Js.max_safe_integer in Hu.
    destruct (Js.overflows (Z.abs z)).
    + now destruct (z <? 0)%Z.
    + destruct (read_integer_magnitude (Z.abs z)) as [E1 E2]; [lia |].
      destruct (z <? 0)%Z.
      * now rewrite E2.
      * cbn [append]. now rewrite E1.
Qed.

Lemma as_integer_int4 (z : Z) :
  Db.in_int4 z = true -> Db.as_integer (Js.Num z) = Some (Some z).
Proof. intro H. now rewrite as_integer_Num, H. Qed.

End ReadBack.

(* ================================================================== *)
(** * Reading rows: [findAll], [findFiltered], and the check of [remove] *)
(* ================================================================== *)

Section Ordering.

Lemma insert_by_handle_perm (j : Db.job) (l : list Db.job) :
  Permutation (Db.insert_by_handle j l) (j :: l).
Proof.
  induction l as [| x rest IH]; simpl.
  - apply Permutation_refl.
  - destruct (Db.companyHandle j <=? Db.companyHandle x).
    + apply Permutation_refl.
    + apply perm_trans with (x :: j :: rest).
      * now apply perm_skip.
      * apply perm_swap.
Qed.

Lemma order_by_handle_perm (l : list Db.job) :
  Permutation (Db.order_by_handle l) l.
Proof.
  induction l as [| j rest IH]; simpl.
  - apply perm_nil.
  - apply perm_trans with (j :: Db.order_by_handle rest).
    + apply insert_by_handle_perm.
    + now apply perm_skip.
Qed.

Lemma insert_by_handle_hd (x j : Db.job) (l : list Db.job) :
  by_handle x j -> HdRel by_handle x l ->
  HdRel by_handle x (Db.insert_by_handle j l).
Proof.
  intros Hxj Hl. destruct l as [| y rest]; simpl.
  - now constructor.
  - destruct (Db.companyHandle j <=? Db.companyHandle y).
    + now constructor.
    + constructor. now inversion Hl.
Qed.

Lemma insert_by_handle_sorted (j : Db.job) (l : list Db.job) :
  Sorted by_handle l -> Sorted by_handle (Db.insert_by_handle j l).
Proof.
  induction 1 as [| x rest Hs IH Hhd]; simpl.
  - repeat constructor.
  - destruct (Db.companyHandle j <=? Db.companyHandle x) eqn:E.
    + constructor; [now constructor | now constructor].
    + constructor; [exact IH |].
      apply insert_by_handle_hd; [| exact Hhd].
      unfold by_handle.
      destruct (String.leb_total (Db.companyHandle j) (Db.companyHandle x))
        as [H | H]; [congruence | exact H].
Qed.

Lemma order_by_handle_sorted (l : list Db.job) :
  Sorted by_handle (Db.order_by_handle l).
Proof.
  induction l as [| j rest IH]; simpl.
  - constructor.
  - now apply insert_by_handle_sorted.
Qed.

End Ordering.

Section ById.

Variable i : Z.

Lemma bind_id_param (rest : list Js.value) :
  Db.bind_cond (Js.Num i :: rest) (Db.IdEq 1)
  = if Db.in_int4 i then Some (Db.BIdEq (Some i)) else None.
Proof.
  change (Db.bind_cond (Js.Num i :: rest) (Db.IdEq 1))
    with (option_map Db.BIdEq (Db.as_integer (Js.Num i))).
  rewrite as_integer_Num. now destruct (Db.in_int4 i).
Qed.

Lemma holds_all_id (j : Db.job) :
  Db.holds_all [Db.BIdEq (Some i)] j = has_id i j.
Proof.
  unfold Db.holds_all, has_id. simpl. apply andb_true_r.
Qed.

(** [SELECT ... FROM jobs WHERE id = $1] with the id as its parameter:
    the store refuses an id its column does not hold. *)
Lemma select_by_id (s : Db.store) :
  Db.exec_select (Db.mkSelect [Db.IdEq 1] false) [Js.Num i] s
  = if Db.in_int4 i
    then Ok (Db.answer (filter (has_id i) (Db.jobs s)))
    else Err (StoreError "invalid parameter").
Proof.
  unfold Db.exec_select. simpl Db.where_. unfold Db.bind_conds.
  rewrite bind_id_param. destruct (Db.in_int4 i); [| reflexivity].
  simpl. now rewrite (filter_ext _ _ holds_all_id).
Qed.

(** [DELETE FROM jobs WHERE id = $1] with the id as its parameter. *)
Lemma delete_by_id (s : Db.store) :
  Db.exec_delete [Db.IdEq 1] [Js.Num i] s
  = if Db.in_int4 i
    then (Ok (Db.mkQueryResult [] (length (filter (has_id i) (Db.jobs s)))),
          Db.mkStore (filter (fun j => negb (has_id i j)) (Db.jobs s))
                     (Db.companies s))
    else (Err (StoreError "invalid parameter"), s).
Proof.
  unfold Db.exec_delete, Db.bind_conds.
  rewrite bind_id_param. destruct (Db.in_int4 i); [| reflexivity].
  rewrite (filter_ext _ _ holds_all_id).
  now rewrite (filter_ext (fun j => negb (Db.holds_all [Db.BIdEq (Some i)] j))
                 (fun j => negb (has_id i j))
                 (fun j => f_equal negb (holds_all_id j))).
Qed.

(** [get] and [remove], by the rows that have the id. *)
Lemma get_unfold (s : Db.store) :
  Job.get i s
  = if Db.in_int4 i
    then match filter (has_id i) (Db.jobs s) with
         | [] => (Err (Job.no_job i), s)
         | j :: _ => (Ok j, s)
         end
    else (Err (StoreError "invalid parameter"), s).
Proof.
  unfold Job.get, bind, db_query, Db.query.
  rewrite select_by_id. destruct (Db.in_int4 i); [| reflexivity].
  cbn [Db.rows Db.answer].
  now destruct (filter (has_id i) (Db.jobs s)).
Qed.

Lemma remove_unfold (s : Db.store) :
  Job.remove i s
  = if Db.in_int4 i
    then match filter (has_id i) (Db.jobs s) with
         | [] => (Err (Job.no_job i), s)
         | _ :: _ =>
             (Ok tt,
              Db.mkStore (filter (fun j => negb (has_id i j)) (Db.jobs s))
                         (Db.companies s))
         end
    else (Err (StoreError "invalid parameter"), s).
Proof.
  unfold Job.remove, bind, db_query, Db.query.
  rewrite select_by_id. destruct (Db.in_int4 i) eqn:Ei; [| reflexivity].
  destruct (filter (has_id i) (Db.jobs s)) as [| x rest] eqn:E.
  - reflexivity.
  - cbn [Db.rowCount Db.answer length Nat.eqb].
    now rewrite delete_by_id, Ei.
Qed.

Lemma filter_has_id_nil (l : list Db.job) :
  (forall j, In j l -> Db.id j <> i) -> filter (has_id i) l = [].
Proof.
  induction l as [| x rest IH]; simpl; intro H.
  - reflexivity.
  - unfold has_id at 1.
    destruct (Z.eqb_spec (Db.id x) i) as [E | E].
    + exfalso. apply (H x); auto.
    + apply IH. intros j Hj. apply H. now right.
Qed.

Lemma filter_has_id_cons (l : list Db.job) :
  (exists j, In j l /\ Db.id j = i) ->
  exists x rest, filter (has_id i) l = x :: rest.
Proof.
  intros (j & Hin & Hid).
  destruct (filter (has_id i) l) as [| x rest] eqn:E.
  - assert (Hj : In j (filter (has_id i) l)).
    { apply filter_In. split; [exact Hin |].
      unfold has_id. now apply Z.eqb_eq. }
    rewrite E in Hj. destruct Hj.
  - now exists x, rest.
Qed.

Lemma filter_keep_all (l : list Db.job) :
  (forall j, In j l -> Db.id j <> i) ->
  filter (fun j => negb (has_id i j)) l = l.
Proof.
  induction l as [| x rest IH]; simpl; intro H.
  - reflexivity.
  - unfold has_id at 1.
    destruct (Z.eqb_spec (Db.id x) i) as [E | E]; simpl.
    + exfalso. apply (H x); auto.
    + f_equal. apply IH. intros j Hj. apply H. now right.
Qed.

(** Where ids are unique, the rows other than the one with id [i] are the
    rows before it and the rows after it. *)
Lemma filter_drop_one (l1 l2 : list Db.job) (j : Db.job) :
  NoDup (map Db.id (l1 ++ j :: l2)) ->
  Db.id j = i ->
  filter (fun x => negb (has_id i x)) (l1 ++ j :: l2) = (l1 ++ l2)%list.
Proof.
  intros Hnd Hid.
  rewrite map_app in Hnd. simpl in Hnd.
  pose proof (NoDup_remove_2 _ _ _ Hnd) as Hnotin.
  rewrite filter_app. simpl.
  unfold has_id at 2. rewrite Hid, Z.eqb_refl. simpl.
  rewrite !filter_keep_all; [reflexivity | |].
  - intros x Hx E. apply Hnotin. rewrite Hid, <- E.
    apply in_or_app. right. now apply in_map.
  - intros x Hx E. apply Hnotin. rewrite Hid, <- E.
    apply in_or_app. left. now apply in_map.
Qed.

End ById.

(** C4, as the code has it.  For an id that the column [id] of the store
    holds, [remove] throws [NotFoundError] when no job has the id, and the
    store is then as it was; it never returns when no job has the id;
    when a job has the id, [remove] returns nothing and the rows with
    that id are gone while every other row stays, in place: with unique
    ids, exactly the one row is deleted.  An id that the column does not
    hold reaches the store as it is: the store refuses it, [remove]
    throws the error of the store, and no row is deleted. *)
Theorem remove_spec :
  forall (id : Z) (s : Db.store),
    (Db.in_int4 id = true ->
     ((forall j, In j (Db.jobs s) -> Db.id j <> id) ->
      Job.remove id s = (Err (Job.no_job id), s))
     /\ (forall s', Job.remove id s = (Ok tt, s') ->
                    exists j, In j (Db.jobs s) /\ Db.id j = id)
     /\ ((exists j, In j (Db.jobs s) /\ Db.id j = id) ->
         Job.remove id s
         = (Ok tt,
            Db.mkStore (filter (fun j => negb (has_id id j)) (Db.jobs s))
                       (Db.companies s)))
     /\ (forall l1 j l2,
            Db.jobs s = (l1 ++ j :: l2)%list ->
            Db.id j = id ->
            NoDup (map Db.id (Db.jobs s)) ->
            Job.remove id s
            = (Ok tt, Db.mkStore (l1 ++ l2) (Db.companies s))))
    /\ (Db.in_int4 id = false ->
        Job.remove id s = (Err (StoreError "invalid parameter"), s)).
Proof.
  intros id s. rewrite remove_unfold.
  split; [intro Hid; rewrite Hid | now intros ->].
  assert (Hfound : (exists j, In j (Db.jobs s) /\ Db.id j = id) ->
                   match filter (has_id id) (Db.jobs s) with
                   | [] => (Err (Job.no_job id), s)
                   | _ :: _ =>
                       (Ok tt,
                        Db.mkStore
                          (filter (fun j => negb (has_id id j)) (Db.jobs s))
                          (Db.companies s))
                   end
                   = (Ok tt,
                      Db.mkStore
                        (filter (fun j => negb (has_id id j)) (Db.jobs s))
                        (Db.companies s))).
  { intro Hex.
    destruct (filter_has_id_cons id _ Hex) as (x & rest & E).
    now rewrite E. }
  split; [| split; [| split]].
  - intro Hnone. now rewrite (filter_has_id_nil id _ Hnone).
  - intros s'.
    destruct (filter (has_id id) (Db.jobs s)) as [| x rest] eqn:E.
    + discriminate.
    + intros _. exists x.
      assert (Hx : In x (filter (has_id id) (Db.jobs s)))
        by (rewrite E; now left).
      apply filter_In in Hx as [Hin Hx].
      split; [exact Hin | now apply Z.eqb_eq].
  - exact Hfound.
  - intros l1 j l2 Hjobs Hj Hnd.
    rewrite Hfound.
    + rewrite Hjobs in Hnd |- *.
      now rewrite (filter_drop_one id l1 l2 j Hnd Hj).
    + exists j. split; [| exact Hj].
      rewrite Hjobs. apply in_or_app. right. now left.
Qed.

Lemma remove_spec_witness :
  Job.remove 999 fixture = (Err (Job.no_job 999), fixture)
  /\ Job.remove 2 fixture
     = (Ok tt, Db.mkStore [job1; job3] ["c1"; "c2"; "c3"])
  /\ Job.remove 2147483648 fixture
     = (Err (StoreError "invalid parameter"), fixture).
Proof.
  split; [| split].
  - apply (proj1 (proj1 (remove_spec 999 fixture) eq_refl)).
    intros j Hj. simpl in Hj.
    destruct Hj as [<- | [<- | [<- | []]]]; discriminate.
  - apply (proj2 (proj2 (proj2 (proj1 (remove_spec 2 fixture) eq_refl)))
             [job1] job2 [job3]).
    + reflexivity.
    + reflexivity.
    + simpl. repeat constructor; simpl; intuition discriminate.
  - apply (proj2 (remove_spec 2147483648 fixture)). reflexivity.
Defined.

(** C4, as stated, fails: no job has the id 2147483648, yet [remove]
    does not throw [NotFoundError]: the id reaches the store unchecked,
    the store refuses it, and the error of the store is what the caller
    sees. *)
Lemma remove_spec_counterexample :
  (forall j, In j (Db.jobs fixture) -> Db.id j <> 2147483648%Z)
  /\ Job.remove 2147483648 fixture
     = (Err (StoreError "invalid parameter"), fixture)
  /\ fst (Job.remove 2147483648 fixture) <> Err (Job.no_job 2147483648).
Proof.
  split; [| split].
  - intros j [<- | [<- | [<- | []]]]; discriminate.
  - vm_compute. reflexivity.
  - vm_compute. discriminate.
Qed.

(** C7.  With no filters, whether the argument is left out or is the
    empty object, [findFiltered] issues the query of [findAll] and
    returns what [findAll] returns: every row of the table, by ascending
    company handle. *)
Theorem findFiltered_no_filters :
  forall s : Db.store,
    Job.findFiltered None s = Job.findAll s
    /\ Job.findFiltered (Some []) s = Job.findAll s
    /\ exists rows,
         Job.findAll s = (Ok rows, s)
         /\ Permutation rows (Db.jobs s)
         /\ Sorted by_handle rows.
Proof.
  intro s. split; [reflexivity | split; [reflexivity |]].
  exists (Db.order_by_handle (Db.jobs s)). split; [| split].
  - unfold Job.findAll, bind, db_query, Db.query, Db.exec_select. simpl.
    now rewrite (filter_ext (Db.holds_all []) (fun _ => true) (fun _ => eq_refl)),
                 filter_true.
  - apply order_by_handle_perm.
  - apply order_by_handle_sorted.
Qed.

(* ================================================================== *)
(** * [findFiltered] *)
(* ================================================================== *)

Section Like.

Lemma like_percent (p t : string) :
  Db.like (String "%" p) t
  = Db.like p t
    || match t with
       | EmptyString => false
       | String _ t' => Db.like (String "%" p) t'
       end.
Proof. destruct t; reflexivity. Qed.

Lemma like_percent_iff (p t : string) :
  Db.like (String "%" p) t = true
  <-> exists a b, t = a ++ b /\ Db.like p b = true.
Proof.
  split.
  - induction t as [| c t IH]; rewrite like_percent; intro H.
    + rewrite orb_false_r in H. now exists "", "".
    + apply orb_true_iff in H as [H | H].
      * now exists "", (String c t).
      * destruct (IH H) as (a & b & -> & Hb).
        now exists (String c a), b.
  - intros (a & b & -> & Hb).
    induction a as [| c a IH]; simpl append; rewrite like_percent.
    + now rewrite Hb.
    + rewrite IH. apply orb_true_r.
Qed.

Lemma like_any (t : string) : Db.like "%" t = true.
Proof.
  apply like_percent_iff. exists t, "". split.
  - now rewrite append_empty_r.
  - reflexivity.
Qed.

Lemma like_plain (c : ascii) (p t : string) :
  wildcard c = false ->
  Db.like (String c p) t
  = match t with
    | EmptyString => false
    | String d t' => (c =? d)%char && Db.like p t'
    end.
Proof.
  unfold wildcard. intro H.
  apply orb_false_iff in H as [H H3]. apply orb_false_iff in H as [H1 H2].
  simpl. rewrite H1, H2, H3. now destruct t.
Qed.

Lemma like_literal (v p : string) :
  no_wildcard v = true ->
  forall t,
    Db.like (v ++ p) t = true
    <-> exists b, t = v ++ b /\ Db.like p b = true.
Proof.
  induction v as [| c v IH]; intros Hv t.
  - simpl. split.
    + intro H. now exists t.
    + now intros (b & -> & H).
  - simpl in Hv. apply andb_true_iff in Hv as [Hc Hv].
    apply negb_true_iff in Hc.
    simpl append. rewrite (like_plain c _ t Hc).
    destruct t as [| d t].
    + split; [discriminate | intros (b & E & _); discriminate].
    + split.
      * intro H. apply andb_true_iff in H as [Hcd H].
        apply Ascii.eqb_eq in Hcd. subst d.
        apply (IH Hv) in H as (b & -> & Hb). now exists b.
      * intros (b & E & Hb). inversion E; subst.
        rewrite Ascii.eqb_refl. simpl.
        apply (IH Hv). now exists b.
Qed.

(** Where the value has no character that [LIKE] reads specially, the
    pattern [%value%] matches the texts that contain the value. *)
Lemma like_contains (v t : string) :
  no_wildcard v = true ->
  Db.like ("%" ++ v ++ "%") t = true <-> exists a b, t = a ++ v ++ b.
Proof.
  intro Hv. simpl append. rewrite like_percent_iff. split.
  - intros (a & b0 & -> & H).
    apply (like_literal v "%" Hv) in H as (b & -> & _). now exists a, b.
  - intros (a & b & ->). exists a, (v ++ b). split; [reflexivity |].
    apply (like_literal v "%" Hv). exists b. split; [reflexivity |].
    apply like_any.
Qed.

Lemma lower_append (a b : string) :
  Db.lower (a ++ b) = Db.lower a ++ Db.lower b.
Proof.
  induction a as [| c a IH]; simpl; [reflexivity | now rewrite IH].
Qed.

Lemma wildcard_lower_char (c : ascii) :
  wildcard (Db.lower_char c) = wildcard c.
Proof.
  destruct c as [[] [] [] [] [] [] [] []]; reflexivity.
Qed.

Lemma no_wildcard_lower (v : string) :
  no_wildcard (Db.lower v) = no_wildcard v.
Proof.
  induction v as [| c v IH]; simpl; [reflexivity |].
  now rewrite wildcard_lower_char, IH.
Qed.

(** The title filter, on a value without such characters, keeps the rows
    whose title contains the value, letter case apart. *)
Lemma title_like_contains (v : string) (j : Db.job) :
  no_wildcard v = true ->
  title_like v j = true
  <-> exists a b, Db.lower (Db.title j) = a ++ Db.lower v ++ b.
Proof.
  intro Hv. unfold title_like, Db.ilike.
  rewrite !lower_append.
  change (Db.lower "%") with "%".
  apply like_contains. now rewrite no_wildcard_lower.
Qed.

End Like.

Section Filters.

Lemma as_numeric_zero :
  Db.as_numeric (Js.Num 0) = Some (Some (Db.mkNumeric 0 0)).
Proof. reflexivity. Qed.

Lemma numeric_gtb_zero (e : Db.numeric) :
  Db.numeric_gtb e (Db.mkNumeric 0 0) = (0 <? Db.mantissa e)%Z.
Proof.
  unfold Db.numeric_gtb. cbn [Db.mantissa Db.scale].
  now rewrite Z.mul_0_l, Z.pow_0_r, Z.mul_1_r.
Qed.

Lemma holds_equity (j : Db.job) :
  Db.holds (Db.BEquityGt (Some (Db.mkNumeric 0 0))) j = positive_equity j.
Proof.
  unfold Db.holds, positive_equity.
  destruct (Db.equity j); [apply numeric_gtb_zero | reflexivity].
Qed.

(** What [findFiltered] returns when [minSalary] is left out or is an
    integer the store can compare a salary with. *)
Lemma findFiltered_rows (filters : Js.obj) (s : Db.store) :
  (Js.get filters "minSalary" = Js.Undefined
   \/ exists m, Js.get filters "minSalary" = Js.Num m
                /\ Db.in_int4 m = true) ->
  Job.findFiltered (Some filters) s
  = (Ok (Db.order_by_handle (filter (satisfies filters) (Db.jobs s))), s).
Proof.
  intro Hms.
  unfold Job.findFiltered, satisfies, minSalary_of.
  destruct Hms as [Hm | (m & Hm & Hr)]; rewrite Hm;
    destruct (Js.get filters "title") eqn:Et;
    destruct (Js.truthy (Js.get filters "hasEquity")) eqn:Eq.
  all: unfold bind, db_query, Db.query, Db.exec_select, ret.
  all: cbn -[Js.to_string Db.as_integer Db.as_numeric Db.holds_all
             Db.order_by_handle filter append].
  all: rewrite ?as_integer_Num, ?Hr, ?as_numeric_zero.
  all: cbn -[Js.to_string Db.as_integer Db.as_numeric Db.holds
             Db.order_by_handle filter append].
  all: f_equal; f_equal; f_equal; apply filter_ext; intro j.
  all: unfold Db.holds_all; cbn [forallb]; rewrite ?holds_equity.
  all: unfold Db.holds, title_like, salary_at_least; cbn [Js.to_string].
  all: rewrite ?andb_true_r, ?andb_true_l, ?andb_assoc; reflexivity.
Qed.

(** A [minSalary] that the store cannot read as an integer of its
    column makes the whole query fail. *)
Lemma findFiltered_refused (filters : Js.obj) (s : Db.store) :
  Db.as_integer (Js.get filters "minSalary") = None ->
  Job.findFiltered (Some filters) s
  = (Err (StoreError "invalid parameter"), s).
Proof.
  intro H. unfold Job.findFiltered.
  destruct (Js.get filters "minSalary") eqn:Em; try discriminate H.
  all: destruct (Js.get filters "title") eqn:Et;
    destruct (Js.truthy (Js.get filters "hasEquity")) eqn:Eq.
  all: unfold bind, db_query, Db.query, Db.exec_select, ret.
  all: cbn -[Js.to_string Db.as_integer Db.as_numeric Db.holds_all
             Db.order_by_handle filter append].
  all: rewrite H; reflexivity.
Qed.

(** Membership in what [findFiltered] returns, filter by filter. *)
Lemma satisfies_iff (filters : Js.obj) (v : string) (j : Db.job) :
  Js.get filters "title" = Js.Str v ->
  no_wildcard v = true ->
  (Js.get filters "minSalary" = Js.Undefined
   \/ exists m, Js.get filters "minSalary" = Js.Num m) ->
  satisfies filters j = true
  <-> contains (Db.lower (Db.title j)) (Db.lower v)
      /\ (forall m, Js.get filters "minSalary" = Js.Num m ->
                    salary_at_least m j = true)
      /\ (Js.truthy (Js.get filters "hasEquity") = true ->
          positive_equity j = true).
Proof.
  intros Ht Hv Hm. unfold satisfies, minSalary_of. rewrite Ht.
  cbn [Js.to_string].
  rewrite !andb_true_iff, (title_like_contains v j Hv).
  unfold contains.
  destruct Hm as [Hm | [m Hm]]; rewrite Hm;
    destruct (Js.truthy (Js.get filters "hasEquity"));
    (split; [intros [[H H2] H3] | intros (H & H2 & H3)]);
    repeat split; auto; try discriminate;
    try (intros m' E; inversion E; subst; assumption);
    try (apply H2; reflexivity);
    try (apply H3; reflexivity).
Qed.

End Filters.

(** C2, as the code has it.  When [minSalary] is left out or is an
    integer that the column [salary] of the store holds, [findFiltered]
    returns, by ascending company handle, exactly the rows that pass
    every filter present: a title, whatever its value, keeps the rows
    whose title matches the pattern [%value%] without regard to case (for
    a value free of [%], [_] and backslash: exactly the rows whose title
    contains it); an integer [minSalary] keeps the rows whose salary is
    not null and at least that; a truthy [hasEquity] keeps the rows whose
    equity is not null and above zero; a filter left out, and a falsy
    [hasEquity], keep every row.  The store is left as it was.  A
    [minSalary] that is a number the column does not hold, or a boolean,
    reaches the store as it is: the store cannot compare a salary with
    it, and [findFiltered] throws the error of the store. *)
Theorem findFiltered_spec :
  forall (filters : Js.obj) (s : Db.store),
    ((Js.get filters "minSalary" = Js.Undefined
      \/ exists m, Js.get filters "minSalary" = Js.Num m
                   /\ Db.in_int4 m = true) ->
     exists rows,
       Job.findFiltered (Some filters) s = (Ok rows, s)
       /\ Permutation rows (filter (satisfies filters) (Db.jobs s))
       /\ Sorted by_handle rows
       /\ forall v,
            Js.get filters "title" = Js.Str v ->
            no_wildcard v = true ->
            forall j,
              In j rows
              <-> In j (Db.jobs s)
                  /\ contains (Db.lower (Db.title j)) (Db.lower v)
                  /\ (forall m, Js.get filters "minSalary" = Js.Num m ->
                                salary_at_least m j = true)
                  /\ (Js.truthy (Js.get filters "hasEquity") = true ->
                      positive_equity j = true))
    /\ (forall m,
           Js.get filters "minSalary" = Js.Num m ->
           Db.in_int4 m = false ->
           Job.findFiltered (Some filters) s
           = (Err (StoreError "invalid parameter"), s))
    /\ (forall b,
           Js.get filters "minSalary" = Js.Bool b ->
           Job.findFiltered (Some filters) s
           = (Err (StoreError "invalid parameter"), s)).
Proof.
  intros filters s. split; [| split].
  - intro Hms.
    exists (Db.order_by_handle (filter (satisfies filters) (Db.jobs s))).
    split; [now apply findFiltered_rows |].
    split; [apply order_by_handle_perm |].
    split; [apply order_by_handle_sorted |].
    intros v Ht Hv j.
    assert (Hm : Js.get filters "minSalary" = Js.Undefined
                 \/ exists m, Js.get filters "minSalary" = Js.Num m).
    { destruct Hms as [H | (m & H & _)]; [now left | right; now exists m]. }
    rewrite <- (satisfies_iff filters v j Ht Hv Hm), <- filter_In.
    split; intro H.
    + now apply (Permutation_in _ (order_by_handle_perm _)).
    + now apply (Permutation_in _ (Permutation_sym (order_by_handle_perm _))).
  - intros m Hm Hr. apply findFiltered_refused.
    now rewrite Hm, as_integer_Num, Hr.
  - intros b Hb. apply findFiltered_refused.
    rewrite Hb. now destruct b.
Qed.

Lemma findFiltered_spec_witness :
  (exists rows,
      Job.findFiltered
        (Some [("title", Js.Str "TITLE"); ("minSalary", Js.Num 60000);
               ("hasEquity", Js.Bool true)])
        fixture
      = (Ok rows, fixture)
      /\ Permutation rows [job2; job3]
      /\ Sorted by_handle rows)
  /\ Job.findFiltered (Some [("minSalary", Js.Num 2147483648)]) fixture
     = (Err (StoreError "invalid parameter"), fixture).
Proof.
  split.
  - destruct (proj1 (findFiltered_spec
                       [("title", Js.Str "TITLE"); ("minSalary", Js.Num 60000);
                        ("hasEquity", Js.Bool true)]
                       fixture))
      as (rows & Hrun & Hperm & Hsorted & _).
    + right. exists 60000%Z. split; reflexivity.
    + exists rows. split; [exact Hrun | split; [exact Hperm | exact Hsorted]].
  - apply (proj1 (proj2 (findFiltered_spec
                           [("minSalary", Js.Num 2147483648)] fixture))
             2147483648%Z);
      reflexivity.
Defined.

(** C2, as stated, fails: a [minSalary] that is no number reaches the
    store as it is, the store cannot compare a salary with it, and
    [findFiltered] throws instead of returning rows. *)
Lemma findFiltered_spec_counterexample :
  Job.findFiltered (Some [("minSalary", Js.Str "abc")]) fixture
  = (Err (StoreError "invalid parameter"), fixture)
  /\ ~ exists rows,
         fst (Job.findFiltered (Some [("minSalary", Js.Str "abc")]) fixture)
         = Ok rows.
Proof.
  split; [vm_compute; reflexivity |].
  intros [rows H]. vm_compute in H. discriminate.
Qed.

(** A title with a character that [LIKE] reads specially is a pattern,
    not a piece of text to find: no title of the store holds an
    underscore, and the title filter [_] keeps every row. *)
Lemma findFiltered_wildcard_title :
  fst (Job.findFiltered (Some [("title", Js.Str "_")]) fixture)
  = Ok (Db.jobs fixture).
Proof. vm_compute. reflexivity. Qed.

(* ================================================================== *)
(** * The SET clause is read back as it was written *)
(* ================================================================== *)

Section SetClause.

Variable jsToSql : Js.obj.

Lemma read_identifier_plain (c : string) (x : ascii) (r : string) :
  no_dquote c = true ->
  (x =? ascii_of_nat 34)%char = false ->
  Db.read_identifier (c ++ String (ascii_of_nat 34) (String x r))
  = Some (c, String x r).
Proof.
  intros Hc Hx. induction c as [| y c IH].
  - simpl. now rewrite Hx.
  - simpl in Hc. apply andb_true_iff in Hc as [Hy Hc].
    apply negb_true_iff in Hy.
    simpl. now rewrite Hy, (IH Hc).
Qed.

Lemma parse_assignment_written (c : string) (n : nat) (tail : string) :
  no_dquote c = true ->
  no_leading_digit tail ->
  Db.parse_assignment
    (dquote ++ c ++ dquote ++ "=$" ++ Js.string_of_nat n ++ tail)
  = Some ((c, n), tail).
Proof.
  intros Hc Htail.
  change (dquote ++ c ++ dquote ++ "=$" ++ Js.string_of_nat n ++ tail)
    with (String (ascii_of_nat 34)
            (c ++ String (ascii_of_nat 34)
                    (String "=" (String "$" (Js.string_of_nat n ++ tail))))).
  unfold Db.parse_assignment.
  rewrite Ascii.eqb_refl.
  rewrite (read_identifier_plain c _ _ Hc) by reflexivity.
  unfold Js.string_of_nat.
  rewrite (read_uint_string_of_uint _ _ Htail).
  pose proof (to_uint_nonnil n) as Hn.
  rewrite <- (DecimalNat.Unsigned.of_to n) at 2.
  destruct (Nat.to_uint n); try reflexivity. contradiction.
Qed.

Lemma col_fragment_append (key : string) (idx : nat) (tail : string) :
  col_fragment jsToSql key idx ++ tail
  = dquote ++ column jsToSql key ++ dquote ++ "=$"
    ++ Js.string_of_nat (idx + 1) ++ tail.
Proof.
  unfold col_fragment, column. now rewrite !append_assoc.
Qed.

Lemma parse_set_clause_written (keys : list string) :
  forall idx fuel,
    keys <> [] ->
    forallb no_dquote (map (column jsToSql) keys) = true ->
    length keys <= fuel ->
    Db.parse_set_clause fuel
      (Js.join ", " (Js.map_from (col_fragment jsToSql) idx keys))
    = Some (written_from jsToSql idx keys).
Proof.
  induction keys as [| key rest IH]; intros idx fuel Hne Hq Hfuel.
  - contradiction.
  - simpl in Hq. apply andb_true_iff in Hq as [Hkey Hrest].
    destruct fuel as [| fuel]; [simpl in Hfuel; lia |].
    destruct rest as [| key2 rest].
    + simpl Js.map_from. simpl Js.join.
      rewrite <- (append_empty_r (col_fragment jsToSql key idx)).
      rewrite col_fragment_append.
      cbn [Db.parse_set_clause].
      now rewrite (parse_assignment_written (column jsToSql key) (idx + 1) "" Hkey I).
    + change (Js.join ", " (Js.map_from (col_fragment jsToSql) idx
                              (key :: key2 :: rest)))
        with (col_fragment jsToSql key idx
              ++ ", " ++ Js.join ", "
                   (Js.map_from (col_fragment jsToSql) (S idx) (key2 :: rest))).
      rewrite col_fragment_append.
      cbn [Db.parse_set_clause].
      rewrite (parse_assignment_written (column jsToSql key) (idx + 1) _ Hkey)
        by reflexivity.
      cbn [append].
      rewrite (IH (S idx) fuel); [reflexivity | discriminate | exact Hrest |].
      simpl in Hfuel |- *. lia.
Qed.

Lemma length_append (a b : string) :
  String.length (a ++ b) = String.length a + String.length b.
Proof.
  induction a as [| x a IH]; simpl; [reflexivity | now rewrite IH].
Qed.

Lemma join_length (keys : list string) :
  forall idx,
    length keys
    <= String.length
         (Js.join ", " (Js.map_from (col_fragment jsToSql) idx keys)).
Proof.
  induction keys as [| key rest IH]; intro idx.
  - simpl. lia.
  - destruct rest as [| key2 rest].
    + simpl. lia.
    + change (Js.join ", " (Js.map_from (col_fragment jsToSql) idx
                              (key :: key2 :: rest)))
        with (col_fragment jsToSql key idx
              ++ ", " ++ Js.join ", "
                   (Js.map_from (col_fragment jsToSql) (S idx) (key2 :: rest))).
      specialize (IH (S idx)).
      set (tl := Js.join ", "
                   (Js.map_from (col_fragment jsToSql) (S idx) (key2 :: rest)))
        in *.
      rewrite !length_append.
      change (String.length ", ") with 2.
      change (length (key :: key2 :: rest)) with (S (length (key2 :: rest))).
      lia.
Qed.

End SetClause.

Section UpdateStatement.

Lemma bind_written (data : Js.obj) :
  forall pre post : list Js.value,
    Db.bind_assignments (pre ++ map snd data ++ post)
      (written_from jsToSql_job (length pre) (Js.keys data))
    = typed_update data.
Proof.
  induction data as [| [key v] rest IH]; intros pre post.
  - reflexivity.
  - specialize (IH (pre ++ [v])%list post).
    rewrite <- app_assoc, length_app in IH. simpl in IH.
    rewrite Nat.add_1_r in IH.
    change (map snd ((key, v) :: rest)) with (v :: map snd rest).
    change (written_from jsToSql_job (length pre) (Js.keys ((key, v) :: rest)))
      with ((column_of key, length pre + 1)
            :: written_from jsToSql_job (S (length pre)) (Js.keys rest)).
    change ((v :: map snd rest) ++ post)%list
      with (v :: map snd rest ++ post)%list.
    cbn [Db.bind_assignments typed_update]. rewrite IH.
    unfold Db.bind_assignment. rewrite Nat.add_1_r. cbn [Db.param].
    rewrite nth_error_app2, Nat.sub_diag by lia.
    reflexivity.
Qed.

Lemma param_last (vals : list Js.value) (v : Js.value) :
  Db.param (vals ++ [v]) (length vals + 1) = Some v.
Proof.
  rewrite Nat.add_1_r. simpl.
  now rewrite nth_error_app2, Nat.sub_diag by lia.
Qed.

Lemma consistent_distinct (l : list (nat * option Db.sql_type)) :
  NoDup (map fst l) -> Db.consistent l = true.
Proof.
  induction l as [| [n ty] rest IH]; simpl; intro H; [reflexivity |].
  inversion H as [| ? ? Hfresh Hnd]; subst.
  rewrite (IH Hnd), andb_true_r.
  apply forallb_forall. intros [m ty'] Hin. simpl.
  destruct (Nat.eqb_spec m n) as [-> | _]; [| reflexivity].
  exfalso. apply Hfresh. apply in_map_iff. now exists (n, ty').
Qed.

Lemma written_from_placeholders (jsToSql : Js.obj) (keys : list string) :
  forall idx,
    map snd (written_from jsToSql idx keys) = seq (idx + 1) (length keys).
Proof.
  induction keys as [| key rest IH]; intro idx; simpl; [reflexivity |].
  unfold written_from in IH. now rewrite IH.
Qed.

(** The placeholders the builder and [update] write are all different:
    each stands by one column. *)
Lemma consistent_written (jsToSql : Js.obj) (keys : list string) (n : nat) :
  n = length keys ->
  Db.consistent (Db.uses (written_from jsToSql 0 keys) (n + 1)) = true.
Proof.
  intros ->. apply consistent_distinct. unfold Db.uses.
  rewrite map_app, map_map. cbn [map fst].
  rewrite (map_ext _ snd) by reflexivity.
  rewrite written_from_placeholders.
  replace (length keys + 1) with (0 + 1 + length keys) by lia.
  rewrite <- seq_S. apply seq_NoDup.
Qed.

Lemma bind_id_last (vals : list Js.value) (i : Z) :
  Db.bind_cond (vals ++ [Js.Num i]) (Db.IdEq (length vals + 1))
  = if Db.in_int4 i then Some (Db.BIdEq (Some i)) else None.
Proof.
  unfold Db.bind_cond. rewrite param_last, as_integer_Num.
  now destruct (Db.in_int4 i).
Qed.

(** What [update] does when no key of the data has a double quote in
    its column: the SET clause the builder writes is read back as the
    keys' columns, each with its own value, and the id is read as an
    integer of its column. *)
Lemma update_unfold (id : Z) (data : Js.obj) (s : Db.store) :
  data <> [] ->
  forallb no_dquote (map column_of (Js.keys data)) = true ->
  Job.update id data s
  = match typed_update data with
    | Some asg =>
        if Db.in_int4 id then apply_update id asg s
        else (Err (StoreError "invalid column or parameter"), s)
    | None => (Err (StoreError "invalid column or parameter"), s)
    end.
Proof.
  intros Hne Hq.
  unfold Job.update, bind, lift.
  rewrite (sqlForPartialUpdate_nonempty _ data Hne).
  unfold ret, db_query, Db.query, Db.exec_update.
  cbn [setCols values].
  unfold Js.map_idx.
  rewrite parse_set_clause_written;
    [| intro E; destruct data; [contradiction | discriminate]
     | exact Hq | apply join_length].
  rewrite parse_placeholder_string_of_nat.
  unfold Js.values.
  pose proof (bind_written data [] [Js.Num id]) as Hb.
  cbn [Datatypes.app length] in Hb. unfold jsToSql_job in Hb.
  rewrite Hb, bind_id_last. clear Hb.
  rewrite consistent_written by (unfold Js.keys; now rewrite !length_map).
  destruct (typed_update data) as [asg |]; [| reflexivity].
  destruct (Db.in_int4 id); [| reflexivity].
  cbn [negb]. unfold apply_update.
  change (Db.holds (Db.BIdEq (Some id))) with (has_id id).
  destruct (Db.distinct (map Db.target asg)); [| reflexivity].
  destruct (Db.rewrite_rows s (has_id id) asg (Db.jobs s)) as [versions |];
    [| reflexivity].
  cbv zeta.
  destruct (existsb (String.eqb "id") (map Db.target asg)
            && negb (Db.keys_unique versions
                       (filter (fun j => negb (has_id id j)) (Db.jobs s)
                        ++ versions)%list));
    [reflexivity |].
  unfold Db.answer. cbn [Db.rows].
  destruct versions; reflexivity.
Qed.

End UpdateStatement.

Section Assignments.

Lemma bind_column_target (c : string) (v : Js.value) (a : Db.assignment) :
  Db.bind_column c v = Some a -> Db.target a = c.
Proof.
  unfold Db.bind_column.
  repeat match goal with
         | |- context [(c =? ?k)] =>
             destruct (String.eqb_spec c k) as [-> | _]
         end;
    try discriminate;
    match goal with
    | |- option_map _ ?x = _ -> _ =>
        destruct x; simpl; intro H; inversion H; reflexivity
    end.
Qed.

Lemma bind_column_null (c : string) (a : Db.assignment) :
  Db.bind_column c Js.Null = Some a -> written a = Db.CNull.
Proof.
  unfold Db.bind_column.
  repeat match goal with
         | |- context [(c =? ?k)] => destruct (c =? k)
         end;
    simpl; intro H; inversion H; reflexivity.
Qed.

Lemma typed_update_targets (data : Js.obj) :
  forall asg,
    typed_update data = Some asg ->
    map Db.target asg = map column_of (Js.keys data).
Proof.
  induction data as [| [key v] rest IH]; simpl; intros asg H.
  - now inversion H.
  - destruct (Db.bind_column (column_of key) v) as [a |] eqn:Ea;
      [| discriminate].
    destruct (typed_update rest) as [l |]; [| discriminate].
    inversion H; subst. simpl.
    now rewrite (bind_column_target _ _ _ Ea), (IH l eq_refl).
Qed.

Lemma typed_update_In (data : Js.obj) :
  forall asg key v,
    typed_update data = Some asg ->
    In (key, v) data ->
    exists a, In a asg /\ Db.bind_column (column_of key) v = Some a.
Proof.
  induction data as [| [key0 v0] rest IH]; simpl; intros asg key v H Hin.
  - destruct Hin.
  - destruct (Db.bind_column (column_of key0) v0) as [a |] eqn:Ea;
      [| discriminate].
    destruct (typed_update rest) as [l |]; [| discriminate].
    inversion H; subst.
    destruct Hin as [E | Hin].
    + inversion E; subst. exists a. split; [now left | exact Ea].
    + destruct (IH l key v eq_refl Hin) as (a' & Ha' & Hb).
      exists a'. split; [now right | exact Hb].
Qed.

Lemma bind_column_unknown (c : string) (v : Js.value) :
  Db.column_type c = None -> Db.bind_column c v = None.
Proof.
  unfold Db.column_type, Db.bind_column.
  repeat match goal with
         | |- context [(c =? ?k)] => destruct (c =? k)
         end;
    try discriminate; reflexivity.
Qed.

(** Data with a key that names no column of [jobs] is not accepted. *)
Lemma typed_update_unknown (data : Js.obj) (key : string) :
  In key (Js.keys data) ->
  Db.column_type (column_of key) = None ->
  typed_update data = None.
Proof.
  intros Hin Hcol.
  induction data as [| [key0 v0] rest IH]; [destruct Hin |].
  simpl in Hin |- *. destruct Hin as [-> | Hin].
  - now rewrite (bind_column_unknown _ v0 Hcol).
  - rewrite (IH Hin). now destruct (Db.bind_column (column_of key0) v0).
Qed.

Lemma assign_frame (a : Db.assignment) (r r' : Db.job) (c : string) :
  Db.assign a r = Some r' ->
  Db.target a <> c ->
  Db.field c r' = Db.field c r.
Proof.
  intros H Hc.
  destruct a as [[z |] | [t |] | o | o | [t |]]; simpl in H;
    inversion H; subst; clear H; simpl in Hc; unfold Db.field; simpl;
    repeat match goal with
           | |- context [(c =? ?k)] =>
               destruct (String.eqb_spec c k) as [-> | _]
           end;
    try reflexivity; contradiction.
Qed.

Lemma assign_written (a : Db.assignment) (r r' : Db.job) :
  Db.assign a r = Some r' ->
  Db.field (Db.target a) r' = written a.
Proof.
  intro H.
  destruct a as [[z |] | [t |] | [z |] | [q |] | [t |]]; simpl in H;
    inversion H; reflexivity.
Qed.

Lemma assign_all_frame (asg : list Db.assignment) (c : string) :
  forall r r',
    Db.assign_all asg r = Some r' ->
    ~ In c (map Db.target asg) ->
    Db.field c r' = Db.field c r.
Proof.
  induction asg as [| a rest IH]; simpl; intros r r' H Hc.
  - now inversion H.
  - destruct (Db.assign a r) as [r1 |] eqn:E; [| discriminate].
    rewrite (IH r1 r' H) by tauto.
    apply (assign_frame a r r1 c E). tauto.
Qed.

Lemma existsb_eqb_false (x : string) (l : list string) :
  existsb (String.eqb x) l = false -> ~ In x l.
Proof.
  intros H Hin.
  assert (existsb (String.eqb x) l = true)
    by (apply existsb_exists; exists x; split;
        [exact Hin | apply String.eqb_refl]).
  congruence.
Qed.

Lemma existsb_eqb_absent (x : string) (l : list string) :
  ~ In x l -> existsb (String.eqb x) l = false.
Proof.
  intro H. destruct (existsb (String.eqb x) l) eqn:E; [| reflexivity].
  apply existsb_exists in E as (y & Hy & Ey).
  apply String.eqb_eq in Ey. subst y. contradiction.
Qed.

Lemma assign_all_written (asg : list Db.assignment) (a : Db.assignment) :
  forall r r',
    Db.assign_all asg r = Some r' ->
    Db.distinct (map Db.target asg) = true ->
    In a asg ->
    Db.field (Db.target a) r' = written a.
Proof.
  induction asg as [| a0 rest IH]; simpl; intros r r' H Hd Hin.
  - destruct Hin.
  - destruct (Db.assign a0 r) as [r1 |] eqn:E; [| discriminate].
    apply andb_true_iff in Hd as [Hfresh Hd].
    apply negb_true_iff in Hfresh.
    destruct Hin as [-> | Hin].
    + rewrite (assign_all_frame rest (Db.target a) r1 r' H)
        by now apply existsb_eqb_false.
      now apply (assign_written a r r1).
    + now apply (IH r1 r').
Qed.

End Assignments.

Section Rows.

Variable s : Db.store.
Variable sel : Db.job -> bool.
Variable asg : list Db.assignment.

Lemma rewrite_rows_none (l : list Db.job) :
  (forall j, In j l -> sel j = false) ->
  Db.rewrite_rows s sel asg l = Some [].
Proof.
  induction l as [| x rest IH]; simpl; intro H.
  - reflexivity.
  - rewrite IH by (intros j Hj; apply H; now right).
    now rewrite (H x) by now left.
Qed.

(** Row by row: the statement goes through exactly when every row it
    selects has a new version, and these are what it writes. *)
Lemma rewrite_rows_versions (l : list Db.job) :
  forall vs,
    Db.rewrite_rows s sel asg l = Some vs
    <-> Forall2 (version s asg) (filter sel l) vs.
Proof.
  induction l as [| x rest IH]; simpl; intro vs.
  - split; intro H; inversion H; [constructor | reflexivity].
  - destruct (sel x) eqn:Ex.
    + split.
      * intro H.
        destruct (Db.rewrite_rows s sel asg rest) as [rest' |] eqn:Er;
          [| discriminate].
        destruct (Db.assign_all asg x) as [x' |] eqn:Ea; [| discriminate].
        destruct (Db.row_ok s x') eqn:Eo; [| discriminate].
        inversion H; subst. constructor; [now split | now apply IH].
      * intro H. inversion H as [| ? x' ? vs' [Ha Ho] Hrest]; subst.
        apply IH in Hrest. now rewrite Hrest, Ha, Ho.
    + rewrite <- IH.
      destruct (Db.rewrite_rows s sel asg rest); split; auto.
Qed.

Lemma filter_none_keeps_all (l : list Db.job) :
  filter sel l = [] -> filter (fun j => negb (sel j)) l = l.
Proof.
  induction l as [| x rest IH]; simpl; intro H; [reflexivity |].
  destruct (sel x); [discriminate |]. simpl. now rewrite IH.
Qed.

(** A statement that writes no new version selects no row. *)
Lemma rewrite_rows_nil (l : list Db.job) :
  Db.rewrite_rows s sel asg l = Some [] ->
  filter (fun j => negb (sel j)) l = l.
Proof.
  intro H. apply rewrite_rows_versions in H.
  apply filter_none_keeps_all. now inversion H.
Qed.

(** The rows a condition leaves out and the rows it selects are the rows
    of the table. *)
Lemma filter_split_perm (l : list Db.job) :
  Permutation (filter (fun j => negb (sel j)) l ++ filter sel l) l.
Proof.
  induction l as [| x rest IH]; simpl; [constructor |].
  destruct (sel x); simpl.
  - apply Permutation_sym, Permutation_cons_app. now apply Permutation_sym.
  - now constructor.
Qed.

End Rows.

Section Columns.

Lemma column_of_no_dquote (key : string) :
  no_dquote key = true -> no_dquote (column_of key) = true.
Proof.
  intro H. unfold column_of, column, Js.get, jsToSql_job, Js.object_prototype.
  cbn [Js.own_get].
  repeat match goal with
         | |- context [(?k =? key)] => destruct (k =? key)
         end;
    try reflexivity.
  exact H.
Qed.

Lemma columns_no_dquote (keys : list string) :
  forallb no_dquote keys = true ->
  forallb no_dquote (map column_of keys) = true.
Proof.
  induction keys as [| key rest IH]; simpl; intro H.
  - reflexivity.
  - apply andb_true_iff in H as [Hk Hr].
    now rewrite (column_of_no_dquote key Hk), (IH Hr).
Qed.

Lemma target_no_dquote (a : Db.assignment) :
  no_dquote (Db.target a) = true.
Proof. destruct a; reflexivity. Qed.

Lemma typed_update_no_dquote (data : Js.obj) (asg : list Db.assignment) :
  typed_update data = Some asg ->
  forallb no_dquote (map column_of (Js.keys data)) = true.
Proof.
  intro H. rewrite <- (typed_update_targets data asg H).
  clear H. induction asg as [| a rest IH]; simpl.
  - reflexivity.
  - now rewrite target_no_dquote, IH.
Qed.

(** The keys written to the column [company_handle]. *)
Lemma column_of_company_handle (key : string) :
  column_of key = "company_handle" ->
  key = "companyHandle" \/ key = "company_handle".
Proof.
  unfold column_of, column, Js.get, jsToSql_job, Js.object_prototype.
  cbn [Js.own_get].
  destruct (String.eqb_spec "companyHandle" key) as [<- | _]; [now left |].
  repeat match goal with
         | |- context [(?k =? key)] => destruct (k =? key)
         end;
    try discriminate.
  simpl. intros ->. now right.
Qed.

End Columns.

Section UpdateOutcome.

Variable id : Z.
Variable data : Js.obj.
Variable s : Db.store.

Lemma store_eta : Db.mkStore (Db.jobs s) (Db.companies s) = s.
Proof. now destruct s. Qed.

Lemma has_id_false (j : Db.job) : Db.id j <> id -> has_id id j = false.
Proof. intro H. unfold has_id. now apply Z.eqb_neq. Qed.

Lemma has_id_true (j : Db.job) : has_id id j = true -> Db.id j = id.
Proof. unfold has_id. apply Z.eqb_eq. Qed.

(** Everything a successful [update] tells: the statement was one the
    store accepts, the rows with the id gave way to their new versions,
    written after the rows the statement did not touch, and the first of
    the new versions is what [update] returned. *)
Lemma update_success (r' : Db.job) (s' : Db.store) :
  forallb no_dquote (Js.keys data) = true ->
  Job.update id data s = (Ok r', s') ->
  exists asg versions,
    typed_update data = Some asg
    /\ Db.distinct (map Db.target asg) = true
    /\ Db.in_int4 id = true
    /\ Forall2 (version s asg) (filter (has_id id) (Db.jobs s)) versions
    /\ hd_error versions = Some r'
    /\ Db.jobs s' = (others id (Db.jobs s) ++ versions)%list
    /\ Db.companies s' = Db.companies s.
Proof.
  intros Hq H.
  assert (Hne : data <> []) by (intros ->; discriminate).
  rewrite (update_unfold id data s Hne (columns_no_dquote _ Hq)) in H.
  destruct (typed_update data) as [asg |]; [| discriminate].
  destruct (Db.in_int4 id) eqn:Hr; [| discriminate].
  unfold apply_update in H.
  destruct (Db.distinct (map Db.target asg)) eqn:Ed; [| discriminate].
  destruct (Db.rewrite_rows s (has_id id) asg (Db.jobs s))
    as [versions |] eqn:Er; [| discriminate].
  cbv zeta in H.
  destruct (existsb (String.eqb "id") (map Db.target asg) && _);
    [discriminate |].
  destruct versions as [| job more]; [discriminate |].
  inversion H; subst; clear H.
  exists asg, (r' :: more). repeat split; auto.
  now apply rewrite_rows_versions.
Qed.

(** An [update] that throws leaves the store as it was, and what it
    throws is [BadRequestError] for empty data, [NotFoundError] for the
    id, or the error of the store. *)
Lemma update_error (s' : Db.store) (e : error) :
  Job.update id data s = (Err e, s') ->
  s' = s
  /\ (data = [] \/ e = Job.no_job id \/ exists m, e = StoreError m).
Proof.
  unfold Job.update, bind, lift.
  destruct (sqlForPartialUpdate data
              [("companyHandle", Js.Str "company_handle")])
    as [frag | e0] eqn:Ef.
  - unfold ret, throw, db_query, Db.query, Db.exec_update.
    destruct (Db.parse_set_clause _ _) as [cols |];
      [| intro H; inversion H; subst; split; eauto].
    destruct (Db.parse_placeholder _) as [n |];
      [| intro H; inversion H; subst; split; eauto].
    destruct (Db.bind_assignments _ cols) as [asg |];
      [| intro H; inversion H; subst; split; eauto].
    destruct (Db.bind_cond _ (Db.IdEq n)) as [b |];
      [| intro H; inversion H; subst; split; eauto].
    destruct (negb (Db.consistent (Db.uses cols n)));
      [intro H; inversion H; subst; split; eauto |].
    destruct (Db.distinct (map Db.target asg));
      [| intro H; inversion H; subst; split; eauto].
    destruct (Db.rewrite_rows s (Db.holds b) asg (Db.jobs s))
      as [versions |] eqn:Er;
      [| intro H; inversion H; subst; split; eauto].
    cbv zeta.
    destruct (existsb (String.eqb "id") (map Db.target asg) && _);
      [intro H; inversion H; subst; split; eauto |].
    unfold Db.answer. cbn [Db.rows].
    destruct versions as [| job more]; [| discriminate].
    intro H. inversion H; subst. split; [| eauto].
    rewrite (rewrite_rows_nil s (Db.holds b) asg _ Er), List.app_nil_r.
    apply store_eta.
  - unfold throw. intro H. inversion H; subst. split; [reflexivity |].
    left. unfold sqlForPartialUpdate in Ef.
    destruct data; [reflexivity | discriminate].
Qed.

End UpdateOutcome.

Section Versions.

Variable data : Js.obj.
Variable s : Db.store.
Variable asg : list Db.assignment.

Hypothesis typed : typed_update data = Some asg.
Hypothesis distinct_targets : Db.distinct (map Db.target asg) = true.

(** A new version differs from its row in the written columns alone. *)
Lemma version_changes_only (x x' : Db.job) :
  version s asg x x' -> changes_only data x x'.
Proof.
  intros [Ha _]. split.
  - intros c Hc. apply (assign_all_frame asg c x x' Ha).
    now rewrite (typed_update_targets data asg typed).
  - intros key Hkey.
    destruct (typed_update_In data asg key Js.Null typed Hkey)
      as (a & Hain & Hb).
    rewrite <- (bind_column_target _ _ _ Hb).
    rewrite (assign_all_written asg a x x' Ha distinct_targets Hain).
    now apply (bind_column_null (column_of key)).
Qed.

Lemma version_keeps_id (x x' : Db.job) :
  ~ In "id" (map column_of (Js.keys data)) ->
  version s asg x x' -> Db.id x' = Db.id x.
Proof.
  intros Hid [Ha _].
  rewrite <- (typed_update_targets data asg typed) in Hid.
  pose proof (assign_all_frame asg "id" x x' Ha Hid) as Hf.
  unfold Db.field in Hf. simpl in Hf. congruence.
Qed.

Lemma version_keeps_company (x x' : Db.job) :
  (forall key, In key (Js.keys data) ->
               key <> "companyHandle" /\ key <> "company_handle") ->
  version s asg x x' -> Db.companyHandle x' = Db.companyHandle x.
Proof.
  intros Hkeys [Ha _].
  assert (Hf : Db.field "company_handle" x' = Db.field "company_handle" x).
  { apply (assign_all_frame asg _ x x' Ha).
    rewrite (typed_update_targets data asg typed).
    intro Hc. apply in_map_iff in Hc as (key & Hcol & Hkey).
    destruct (Hkeys key Hkey) as [H1 H2].
    destruct (column_of_company_handle key Hcol); contradiction. }
  unfold Db.field in Hf. simpl in Hf. congruence.
Qed.

Lemma version_takes_company (x x' : Db.job) (h : string) :
  In ("companyHandle", Js.Str h) data ->
  version s asg x x' -> Db.companyHandle x' = h.
Proof.
  intros Hh [Ha _].
  destruct (typed_update_In data asg _ _ typed Hh) as (a & Hain & Hb).
  pose proof (assign_all_written asg a x x' Ha distinct_targets Hain) as Hw.
  vm_compute in Hb. inversion Hb; subst a.
  simpl in Hw. unfold Db.field in Hw. simpl in Hw. congruence.
Qed.

End Versions.

Section Lists.

Lemma Forall2_head {A B : Type} (R : A -> B -> Prop) (l : list A)
      (l' : list B) (y : B) :
  Forall2 R l l' -> hd_error l' = Some y ->
  exists x, hd_error l = Some x /\ R x y.
Proof.
  intros H Hy. destruct H as [| x y' l l' Hxy _]; [discriminate |].
  inversion Hy; subst. now exists x.
Qed.

Lemma Forall2_right {A B : Type} (R : A -> B -> Prop) (P : B -> Prop)
      (l : list A) (l' : list B) :
  (forall x y, R x y -> P y) -> Forall2 R l l' -> Forall P l'.
Proof.
  intros HR H. induction H; constructor; eauto.
Qed.

Lemma Forall2_map {A B C : Type} (R : A -> B -> Prop) (f : A -> C)
      (g : B -> C) (l : list A) (l' : list B) :
  (forall x y, R x y -> g y = f x) -> Forall2 R l l' -> map g l' = map f l.
Proof.
  intros HR H. induction H; simpl; [reflexivity |].
  now rewrite IHForall2, (HR _ _ H).
Qed.

Lemma hd_error_In {A : Type} (l : list A) (x : A) :
  hd_error l = Some x -> In x l.
Proof. destruct l; [discriminate |]. intro H. inversion H. now left. Qed.

(** Where ids are unique, one row at most has the id. *)
Lemma filter_has_id_one (i : Z) (l : list Db.job) :
  NoDup (map Db.id l) ->
  forall x rest, filter (has_id i) l = x :: rest -> rest = [].
Proof.
  induction l as [| y l IH]; simpl; intros Hnd x rest E; [discriminate |].
  inversion Hnd as [| ? ? Hfresh Hnd']; subst.
  destruct (has_id i y) eqn:Ey.
  - inversion E; subst.
    apply filter_has_id_nil. intros j Hj Hid. apply Hfresh.
    apply Z.eqb_eq in Ey. rewrite Ey, <- Hid. now apply in_map.
  - now apply (IH Hnd' x).
Qed.

End Lists.

(* ================================================================== *)
(** * [update] *)
(* ================================================================== *)

(** C5, as the code has it.  Take data that is not empty and whose keys
    hold no double quote.  When the store accepts the statement (every
    key names a column of [jobs], [companyHandle] standing for
    [company_handle]; no column is named twice; every value has the type
    of its column; the id is an integer the column [id] holds), [update]
    throws [NotFoundError] exactly when no job has the id, the store
    being then as it was; and when one job has the id, the data does not
    write the id and the new version of the row meets the constraints of
    the store, [update] returns that version, id included, and the table
    holds it instead of the old row.  When a key names no column of
    [jobs], when two keys are written to one column, or when the id is
    not an integer the column [id] holds, [update] throws the error of
    the store.  Whenever [update] throws, the store is as it was, and
    what it throws is [NotFoundError] or the error of the store. *)
Theorem update_not_found_iff :
  forall (id : Z) (data : Js.obj) (s : Db.store),
    data <> [] ->
    forallb no_dquote (Js.keys data) = true ->
    (forall asg,
        typed_update data = Some asg ->
        Db.distinct (map Db.target asg) = true ->
        Db.in_int4 id = true ->
        (fst (Job.update id data s) = Err (Job.no_job id)
         <-> (forall j, In j (Db.jobs s) -> Db.id j <> id))
        /\ ((forall j, In j (Db.jobs s) -> Db.id j <> id) ->
            snd (Job.update id data s) = s)
        /\ (forall l1 r l2 r',
               Db.jobs s = (l1 ++ r :: l2)%list ->
               Db.id r = id ->
               (forall x, In x (l1 ++ l2) -> Db.id x <> id) ->
               ~ In "id" (map Db.target asg) ->
               Db.assign_all asg r = Some r' ->
               Db.row_ok s r' = true ->
               exists s',
                 Job.update id data s = (Ok r', s')
                 /\ Db.id r' = id
                 /\ Permutation (Db.jobs s') (l1 ++ r' :: l2)
                 /\ Db.companies s' = Db.companies s))
    /\ (((exists key, In key (Js.keys data)
                      /\ Db.column_type (column_of key) = None)
         \/ Db.distinct (map column_of (Js.keys data)) = false
         \/ Db.in_int4 id = false) ->
        exists m, Job.update id data s = (Err (StoreError m), s))
    /\ (forall e s',
           Job.update id data s = (Err e, s') ->
           s' = s /\ (e = Job.no_job id \/ exists m, e = StoreError m)).
Proof.
  intros id data s Hne Hq.
  pose proof (update_unfold id data s Hne (columns_no_dquote _ Hq)) as Hrun.
  split; [| split].
  - intros asg Ht Hd Hr.
    rewrite Ht, Hr in Hrun. unfold apply_update in Hrun. rewrite Hd in Hrun.
    assert (Hnone : (forall j, In j (Db.jobs s) -> Db.id j <> id) ->
                    Job.update id data s = (Err (Job.no_job id), s)).
    { intro Hno.
      rewrite (rewrite_rows_none s (has_id id) asg (Db.jobs s)) in Hrun
        by (intros j Hj; apply has_id_false; now apply Hno).
      cbv zeta in Hrun. cbn [Db.keys_unique forallb negb] in Hrun.
      rewrite andb_false_r, List.app_nil_r in Hrun.
      rewrite (filter_keep_all id _ Hno) in Hrun.
      now rewrite Hrun, store_eta. }
    split; [| split].
    + split.
      * intros Hnf.
        destruct (Db.rewrite_rows s (has_id id) asg (Db.jobs s))
          as [versions |] eqn:Er;
          [| rewrite Hrun in Hnf; discriminate].
        cbv zeta in Hrun.
        destruct (existsb (String.eqb "id") (map Db.target asg) && _);
          [rewrite Hrun in Hnf; discriminate |].
        destruct versions as [| job more];
          [| rewrite Hrun in Hnf; discriminate].
        apply rewrite_rows_versions in Er. inversion Er as [E |].
        intros j Hj Hid.
        assert (Hin : In j (filter (has_id id) (Db.jobs s))).
        { apply filter_In. split; [exact Hj |].
          unfold has_id. now apply Z.eqb_eq. }
        rewrite <- E in Hin. destruct Hin.
      * intro Hno. now rewrite (Hnone Hno).
    + intro Hno. now rewrite (Hnone Hno).
    + intros l1 r l2 r' Hjobs Hid Hothers Hnid Ha Ho.
      assert (Hsel : filter (has_id id) (Db.jobs s) = [r]).
      { rewrite Hjobs, filter_app. cbn [filter].
        unfold has_id at 2. rewrite Hid, Z.eqb_refl.
        rewrite !filter_has_id_nil; [reflexivity | |];
          intros x Hx; apply Hothers; apply in_or_app; auto. }
      assert (Hkept : filter (fun j => negb (has_id id j)) (Db.jobs s)
                      = (l1 ++ l2)%list).
      { rewrite Hjobs, filter_app. cbn [filter].
        unfold has_id at 2. rewrite Hid, Z.eqb_refl. cbn [negb].
        rewrite !filter_keep_all; [reflexivity | |];
          intros x Hx; apply Hothers; apply in_or_app; auto. }
      assert (Er : Db.rewrite_rows s (has_id id) asg (Db.jobs s)
                   = Some [r']).
      { apply rewrite_rows_versions. rewrite Hsel.
        constructor; [now split | constructor]. }
      rewrite Er in Hrun. cbv zeta in Hrun.
      rewrite (existsb_eqb_absent "id" _ Hnid) in Hrun.
      cbn [andb] in Hrun. rewrite Hkept in Hrun.
      eexists. split; [exact Hrun |]. cbn [Db.jobs Db.companies].
      split; [| split; [| reflexivity]].
      * pose proof (assign_all_frame asg "id" r r' Ha Hnid) as Hf.
        unfold Db.field in Hf. simpl in Hf. congruence.
      * rewrite <- List.app_assoc. apply Permutation_app_head.
        apply Permutation_sym, Permutation_cons_append.
  - intros [(key & Hkey & Hcol) | [Hd | Hr]].
    + rewrite (typed_update_unknown data key Hkey Hcol) in Hrun. eauto.
    + destruct (typed_update data) as [asg |] eqn:Ht; [| eauto].
      unfold apply_update in Hrun.
      rewrite (typed_update_targets data asg Ht), Hd in Hrun.
      destruct (Db.in_int4 id); eauto.
    + rewrite Hr in Hrun. destruct (typed_update data); eauto.
  - intros e s' H.
    destruct (update_error id data s s' e H) as [Hs [He | He]];
      [contradiction | now split].
Qed.

Lemma update_not_found_iff_witness :
  (fst (Job.update 999 [("title", Js.Str "new nope")] fixture)
   = Err (Job.no_job 999)
   <-> (forall j, In j (Db.jobs fixture) -> Db.id j <> 999%Z))
  /\ (exists s',
         Job.update 2 [("title", Js.Str "Updated Job"); ("salary", Js.Null)]
           fixture
         = (Ok job2_updated, s')
         /\ Db.id job2_updated = 2%Z
         /\ Permutation (Db.jobs s') [job1; job2_updated; job3]
         /\ Db.companies s' = Db.companies fixture)
  /\ (exists m,
         Job.update 2147483648 [("title", Js.Str "new nope")] fixture
         = (Err (StoreError m), fixture)).
Proof.
  split; [| split].
  - apply (proj1 (update_not_found_iff 999 [("title", Js.Str "new nope")]
                    fixture ltac:(discriminate) eq_refl)
             [Db.SetTitle (Some "new nope")]);
      reflexivity.
  - apply (proj2 (proj2
             (proj1 (update_not_found_iff 2
                       [("title", Js.Str "Updated Job"); ("salary", Js.Null)]
                       fixture ltac:(discriminate) eq_refl)
                [Db.SetTitle (Some "Updated Job"); Db.SetSalary None]
                eq_refl eq_refl eq_refl))
             [job1] job2 [job3] job2_updated).
    + reflexivity.
    + reflexivity.
    + intros x [<- | [<- | []]]; discriminate.
    + simpl. intros [H | [H | []]]; discriminate.
    + reflexivity.
    + reflexivity.
  - apply (proj1 (proj2 (update_not_found_iff 2147483648
                           [("title", Js.Str "new nope")] fixture
                           ltac:(discriminate) eq_refl))).
    right. right. reflexivity.
Defined.

(** C5, as stated, fails: no job has the id 999, yet [update] with a key
    that names no column does not throw [NotFoundError]: the store
    refuses the statement, and its error is what the caller sees. *)
Lemma update_not_found_iff_counterexample :
  ~ (fst (Job.update 999 [("something", Js.Str "something")] fixture)
     = Err (Job.no_job 999)
     <-> (forall j, In j (Db.jobs fixture) -> Db.id j <> 999%Z)).
Proof.
  intros [_ H].
  assert (Hno : forall j, In j (Db.jobs fixture) -> Db.id j <> 999%Z).
  { intros j [<- | [<- | [<- | []]]]; discriminate. }
  specialize (H Hno). vm_compute in H. discriminate.
Qed.

(** The same claim fails on its other half too: the job 1 exists, and an
    update of its company to a handle that names no company returns no
    record. *)
Lemma update_unknown_company :
  fst (Job.update 1 [("companyHandle", Js.Str "nope")] fixture)
  = Err (StoreError "constraint violation").
Proof. vm_compute. reflexivity. Qed.

(** And no job has the id 2147483648, which the column [id] does not
    hold: the store refuses it. *)
Lemma update_id_out_of_range :
  Job.update 2147483648 [("title", Js.Str "x")] fixture
  = (Err (StoreError "invalid column or parameter"), fixture).
Proof. vm_compute. reflexivity. Qed.

(** C6, as the code has it.  After a successful [update] whose keys hold
    no double quote, the table holds the rows that had another id, as
    they were, and, instead of the rows that had the id, their new
    versions, of which the first is the row returned.  A new version
    differs from its row at most in the columns that keys of the data
    are written to, and has null in the column of a key given [null];
    its id is the id unless a key names the column [id].  With unique
    ids the returned row is the one new version.  The companies are as
    they were. *)
Theorem update_frame :
  forall (id : Z) (data : Js.obj) (s s' : Db.store) (r' : Db.job),
    forallb no_dquote (Js.keys data) = true ->
    Job.update id data s = (Ok r', s') ->
    exists versions,
      Permutation (Db.jobs s') (others id (Db.jobs s) ++ versions)
      /\ Forall2 (changes_only data)
                 (filter (has_id id) (Db.jobs s)) versions
      /\ hd_error versions = Some r'
      /\ (exists r, In r (Db.jobs s) /\ Db.id r = id
                    /\ changes_only data r r')
      /\ (~ In "id" (map column_of (Js.keys data)) ->
          Forall (fun x' => Db.id x' = id) versions)
      /\ (NoDup (map Db.id (Db.jobs s)) -> versions = [r'])
      /\ Db.companies s' = Db.companies s.
Proof.
  intros id data s s' r' Hq H.
  destruct (update_success id data s r' s' Hq H)
    as (asg & versions & Ht & Hd & Hr & Hv & Hhd & Hjobs & Hc).
  exists versions.
  assert (Hframe : Forall2 (changes_only data)
                     (filter (has_id id) (Db.jobs s)) versions).
  { eapply Forall2_impl; [| exact Hv].
    intros x x'. now apply (version_changes_only data s asg). }
  split; [rewrite Hjobs; apply Permutation_refl |].
  split; [exact Hframe |].
  split; [exact Hhd |].
  split; [| split; [| split; [| exact Hc]]].
  - destruct (Forall2_head _ _ _ _ Hframe Hhd) as (r & Hr0 & Hrr').
    apply hd_error_In, filter_In in Hr0 as [Hin Hid].
    exists r. split; [exact Hin |].
    split; [now apply has_id_true | exact Hrr'].
  - intro Hnid.
    assert (Hsel : Forall (fun x => Db.id x = id)
                     (filter (has_id id) (Db.jobs s))).
    { apply Forall_forall. intros x Hx.
      apply filter_In in Hx as [_ Hx]. now apply has_id_true. }
    clear Hframe Hhd Hjobs.
    induction Hv as [| x x' l l' Hxx' _ IH]; constructor.
    + rewrite (version_keeps_id data s asg Ht x x' Hnid Hxx').
      now inversion Hsel.
    + apply IH. now inversion Hsel.
  - intro Hnd.
    destruct versions as [| v more]; [discriminate |].
    inversion Hhd; subst v.
    inversion Hv as [| x x' l l' _ Hrest E1 E2]; subst.
    symmetry in E1.
    rewrite (filter_has_id_one id _ Hnd _ _ E1) in Hrest.
    now inversion Hrest.
Qed.

Lemma update_frame_witness :
  exists versions,
    Permutation (Db.jobs fixture_job2_updated)
                (others 2 (Db.jobs fixture) ++ versions)
    /\ Forall2 (changes_only
                  [("title", Js.Str "Updated Job"); ("salary", Js.Null)])
               (filter (has_id 2) (Db.jobs fixture)) versions
    /\ hd_error versions = Some job2_updated
    /\ (exists r, In r (Db.jobs fixture) /\ Db.id r = 2%Z
                  /\ changes_only
                       [("title", Js.Str "Updated Job"); ("salary", Js.Null)]
                       r job2_updated)
    /\ (~ In "id" ["title"; "salary"] ->
        Forall (fun x' => Db.id x' = 2%Z) versions)
    /\ (NoDup (map Db.id (Db.jobs fixture)) -> versions = [job2_updated])
    /\ Db.companies fixture_job2_updated = Db.companies fixture.
Proof.
  apply (update_frame 2
           [("title", Js.Str "Updated Job"); ("salary", Js.Null)]
           fixture fixture_job2_updated job2_updated);
    reflexivity.
Defined.

(** C6, as stated, fails: data with the key [id] rewrites the id, which
    the claim says is unchanged.  The job is one that no application
    refers to. *)
Lemma update_frame_counterexample :
  exists r' s',
    Job.update 4 [("id", Js.Num 77)] with_new_job = (Ok r', s')
    /\ Db.id r' <> 4%Z
    /\ ~ In 4%Z (map Db.id (Db.jobs s')).
Proof.
  eexists. eexists. split; [vm_compute; reflexivity |].
  split; [discriminate |].
  simpl. intros [H | [H | [H | [H | []]]]]; discriminate.
Qed.

(** A key that holds a double quote can close the identifier it is
    quoted in: here one key rewrites two columns, neither of them named
    by a key of the data. *)
Lemma update_quote_in_key :
  fst (Job.update 4
         [("id" ++ dquote ++ "=$1, " ++ dquote ++ "salary", Js.Num 7)]
         with_new_job)
  = Ok (Db.mkJob 7 "New Job" (Some 7%Z) (Some (Db.mkNumeric 5 2)) "c1").
Proof. vm_compute. reflexivity. Qed.

(** C8, as the code has it.  After a successful [update] whose keys hold
    no double quote, the table holds the rows that had another id and,
    instead of the rows that had the id, their new versions, of which
    the first is the row returned.  Whenever the data has neither the key
    [companyHandle] nor the key [company_handle], the new versions have
    the company handles of their rows; the key [companyHandle] is
    written to the column [company_handle], and every new version then
    has the handle given. *)
Theorem update_companyHandle :
  forall (id : Z) (data : Js.obj) (s s' : Db.store) (r' : Db.job),
    forallb no_dquote (Js.keys data) = true ->
    Job.update id data s = (Ok r', s') ->
    exists versions,
      Permutation (Db.jobs s') (others id (Db.jobs s) ++ versions)
      /\ hd_error versions = Some r'
      /\ ((forall key, In key (Js.keys data) ->
                       key <> "companyHandle" /\ key <> "company_handle") ->
          map Db.companyHandle versions
          = map Db.companyHandle (filter (has_id id) (Db.jobs s)))
      /\ (forall h, In ("companyHandle", Js.Str h) data ->
                    Forall (fun x' => Db.companyHandle x' = h) versions)
      /\ exists r,
           In r (Db.jobs s) /\ Db.id r = id
           /\ ((forall key, In key (Js.keys data) ->
                            key <> "companyHandle"
                            /\ key <> "company_handle") ->
               Db.companyHandle r' = Db.companyHandle r)
           /\ (forall h, In ("companyHandle", Js.Str h) data ->
                         Db.companyHandle r' = h).
Proof.
  intros id data s s' r' Hq H.
  destruct (update_success id data s r' s' Hq H)
    as (asg & versions & Ht & Hd & Hr & Hv & Hhd & Hjobs & Hc).
  exists versions.
  split; [rewrite Hjobs; apply Permutation_refl |].
  split; [exact Hhd |].
  split; [| split].
  - intro Hkeys. eapply Forall2_map; [| exact Hv].
    intros x x'. now apply (version_keeps_company data s asg Ht).
  - intros h Hh. eapply Forall2_right; [| exact Hv].
    intros x x'. now apply (version_takes_company data s asg Ht Hd).
  - destruct (Forall2_head _ _ _ _ Hv Hhd) as (r & Hr0 & Hrr').
    apply hd_error_In, filter_In in Hr0 as [Hin Hid].
    exists r. split; [exact Hin |].
    split; [now apply has_id_true |].
    split.
    + intro Hkeys. now apply (version_keeps_company data s asg Ht r r').
    + intros h Hh.
      now apply (version_takes_company data s asg Ht Hd r r').
Qed.

Lemma update_companyHandle_witness :
  exists versions,
    Permutation (Db.jobs fixture_job1_renamed)
                (others 1 (Db.jobs fixture) ++ versions)
    /\ hd_error versions = Some job1_renamed
    /\ ((forall key, In key ["title"] ->
                     key <> "companyHandle" /\ key <> "company_handle") ->
        map Db.companyHandle versions
        = map Db.companyHandle (filter (has_id 1) (Db.jobs fixture)))
    /\ (forall h,
           In ("companyHandle", Js.Str h) [("title", Js.Str "Job 1 new")] ->
           Forall (fun x' => Db.companyHandle x' = h) versions)
    /\ exists r,
         In r (Db.jobs fixture) /\ Db.id r = 1%Z
         /\ ((forall key, In key ["title"] ->
                          key <> "companyHandle"
                          /\ key <> "company_handle") ->
             Db.companyHandle job1_renamed = Db.companyHandle r)
         /\ (forall h,
                In ("companyHandle", Js.Str h)
                   [("title", Js.Str "Job 1 new")] ->
                Db.companyHandle job1_renamed = h).
Proof.
  apply (update_companyHandle 1 [("title", Js.Str "Job 1 new")] fixture
           fixture_job1_renamed job1_renamed);
    reflexivity.
Defined.

(** C8, as stated, fails: the mapping of [update] exists to carry the key
    [companyHandle] to its column, and an update with that key moves the
    job to another company. *)
Lemma update_companyHandle_counterexample :
  exists r' s',
    Job.update 1 [("companyHandle", Js.Str "c2")] fixture = (Ok r', s')
    /\ Db.companyHandle r' = "c2"
    /\ (forall r, In r (Db.jobs fixture) -> Db.id r = 1%Z ->
                  Db.companyHandle r = "c1"
                  /\ Db.companyHandle r' <> Db.companyHandle r)
    /\ forall x, In x (Db.jobs s') -> Db.id x = 1%Z ->
                 Db.companyHandle x = "c2".
Proof.
  eexists. eexists. split; [vm_compute; reflexivity |].
  split; [reflexivity |]. split.
  - intros r [<- | [<- | [<- | []]]] Hid; try discriminate.
    split; [reflexivity | discriminate].
  - intros x [<- | [<- | [<- | []]]] Hid; try discriminate. reflexivity.
Qed.

(* ================================================================== *)
(** * More on [sqlForPartialUpdate] *)
(* ================================================================== *)

Section Builder.

Lemma map_from_ext {A B : Type} (f g : A -> nat -> B) (l : list A) :
  (forall x i, In x l -> f x i = g x i) ->
  forall idx, Js.map_from f idx l = Js.map_from g idx l.
Proof.
  induction l as [| x rest IH]; intros H idx; simpl.
  - reflexivity.
  - rewrite (H x idx) by now left.
    rewrite IH; [reflexivity |].
    intros y i Hy. apply H. now right.
Qed.

(** The fragments depend on the keys through their columns alone. *)
Lemma map_from_columns (m1 m2 : Js.obj) (k1 : list string) :
  forall (k2 : list string) idx,
    map (column m1) k1 = map (column m2) k2 ->
    Js.map_from (col_fragment m1) idx k1
    = Js.map_from (col_fragment m2) idx k2.
Proof.
  induction k1 as [| x k1 IH]; intros [| y k2] idx H; simpl in H;
    try discriminate.
  - reflexivity.
  - injection H as Hxy Hrest. simpl.
    rewrite (IH k2 (S idx) Hrest). f_equal.
    unfold col_fragment. unfold column in Hxy. now rewrite Hxy.
Qed.

(** Two calls whose keys are written under the same columns, with the
    same values, give the same result. *)
Lemma sqlForPartialUpdate_by_columns (d1 d2 m1 m2 : Js.obj) :
  map (column m1) (Js.keys d1) = map (column m2) (Js.keys d2) ->
  Js.values d1 = Js.values d2 ->
  sqlForPartialUpdate d1 m1 = sqlForPartialUpdate d2 m2.
Proof.
  intros Hc Hv. unfold sqlForPartialUpdate.
  assert (Hlen : length (Js.keys d1) = length (Js.keys d2)).
  { rewrite <- (length_map (column m1)), Hc. apply length_map. }
  rewrite Hlen.
  destruct (length (Js.keys d2) =? 0)%nat; [reflexivity |].
  unfold Js.map_idx. now rewrite (map_from_columns m1 m2 _ _ 0 Hc), Hv.
Qed.

End Builder.

(** X2.  The mapping matters only at the keys of the data: two mappings
    that give the same lookup for every key of [dataToUpdate] give the
    same result, whatever else they hold. *)
Theorem sqlForPartialUpdate_mapping_local :
  forall (dataToUpdate m1 m2 : Js.obj),
    (forall key, In key (Js.keys dataToUpdate) ->
                 Js.get m1 key = Js.get m2 key) ->
    sqlForPartialUpdate dataToUpdate m1 = sqlForPartialUpdate dataToUpdate m2.
Proof.
  intros data m1 m2 H.
  apply sqlForPartialUpdate_by_columns; [| reflexivity].
  apply map_ext_in. intros key Hkey. unfold column. now rewrite (H key Hkey).
Qed.

Lemma sqlForPartialUpdate_mapping_local_witness :
  sqlForPartialUpdate
    [("lastName", Js.Str "Smith"); ("age", Js.Num 40)]
    [("firstName", Js.Str "first_name")]
  = sqlForPartialUpdate [("lastName", Js.Str "Smith"); ("age", Js.Num 40)] [].
Proof.
  apply (sqlForPartialUpdate_mapping_local
           [("lastName", Js.Str "Smith"); ("age", Js.Num 40)]
           [("firstName", Js.Str "first_name")] []).
  intros key [<- | [<- | []]]; reflexivity.
Defined.

Section RoundTrip.

Variable jsToSql : Js.obj.

Lemma resolve_written (data : Js.obj) :
  forall pre post : list Js.value,
    map (resolve (pre ++ map snd data ++ post))
        (written_from jsToSql (length pre) (Js.keys data))
    = map (as_column jsToSql) data.
Proof.
  induction data as [| [key v] rest IH]; intros pre post.
  - reflexivity.
  - specialize (IH (pre ++ [v])%list post).
    rewrite <- app_assoc, length_app in IH. simpl in IH.
    rewrite Nat.add_1_r in IH.
    change (map snd ((key, v) :: rest)) with (v :: map snd rest).
    change (written_from jsToSql (length pre) (Js.keys ((key, v) :: rest)))
      with ((column jsToSql key, length pre + 1)
            :: written_from jsToSql (S (length pre)) (Js.keys rest)).
    change ((v :: map snd rest) ++ post)%list
      with (v :: map snd rest ++ post)%list.
    cbn [map]. rewrite IH. f_equal.
    unfold resolve, as_column. cbn [fst snd].
    rewrite Nat.add_1_r. cbn [Db.param].
    now rewrite nth_error_app2, Nat.sub_diag by lia.
Qed.

End RoundTrip.

(** X3.  What the builder writes can be read back: when no column holds
    a double quote, the text of [setCols] reads as one assignment per key,
    in order, and looking up each placeholder in the parameters [update]
    sends ([values] followed by the id) gives back every key's column
    with its own value; the placeholder [update] writes for the id names
    the id, the last parameter. *)
Theorem set_clause_round_trip :
  forall (dataToUpdate jsToSql : Js.obj) (frag : fragments) (id : Z),
    sqlForPartialUpdate dataToUpdate jsToSql = Ok frag ->
    forallb no_dquote (map (column jsToSql) (Js.keys dataToUpdate)) = true ->
    exists assignments,
      Db.parse_set_clause (String.length (setCols frag)) (setCols frag)
      = Some assignments
      /\ map (resolve (values frag ++ [Js.Num id])) assignments
         = map (as_column jsToSql) dataToUpdate
      /\ option_map (Db.param (values frag ++ [Js.Num id]))
           (Db.parse_placeholder
              ("$" ++ Js.string_of_nat (length (values frag) + 1)))
         = Some (Some (Js.Num id)).
Proof.
  intros data jsToSql frag id Hfrag Hq.
  assert (Hne : data <> []) by (intros ->; discriminate).
  rewrite (sqlForPartialUpdate_nonempty jsToSql data Hne) in Hfrag.
  injection Hfrag as <-. cbn [setCols values].
  exists (written_from jsToSql 0 (Js.keys data)).
  split; [| split].
  - unfold Js.map_idx. apply parse_set_clause_written.
    + intro E. destruct data; [contradiction | discriminate].
    + exact Hq.
    + apply join_length.
  - unfold Js.values.
    exact (resolve_written jsToSql data [] [Js.Num id]).
  - rewrite parse_placeholder_string_of_nat. cbn [option_map].
    now rewrite param_last.
Qed.

Lemma set_clause_round_trip_witness :
  exists assignments,
    Db.parse_set_clause
      (String.length (quoted "title" ++ "=$1, " ++ quoted "company_handle"
                      ++ "=$2"))
      (quoted "title" ++ "=$1, " ++ quoted "company_handle" ++ "=$2")
    = Some assignments
    /\ map (resolve [Js.Str "T"; Js.Str "c2"; Js.Num 7]) assignments
       = [("title", Some (Js.Str "T")); ("company_handle", Some (Js.Str "c2"))]
    /\ option_map (Db.param [Js.Str "T"; Js.Str "c2"; Js.Num 7])
         (Db.parse_placeholder "$3")
       = Some (Some (Js.Num 7)).
Proof.
  apply (set_clause_round_trip
           [("title", Js.Str "T"); ("companyHandle", Js.Str "c2")]
           jsToSql_job
           {| setCols := quoted "title" ++ "=$1, "
                         ++ quoted "company_handle" ++ "=$2";
              values := [Js.Str "T"; Js.Str "c2"] |}
           7);
    reflexivity.
Defined.

(** X4.  [update] writes the keys [companyHandle] and [company_handle] to
    the same column: data that differ only in which of the two names a
    key has give the same statement, hence the same outcome. *)
Theorem update_company_handle_alias :
  forall (id : Z) (before after : Js.obj) (v : Js.value) (s : Db.store),
    Job.update id (before ++ ("companyHandle", v) :: after)%list s
    = Job.update id (before ++ ("company_handle", v) :: after)%list s.
Proof.
  intros id before after v s. unfold Job.update.
  rewrite (sqlForPartialUpdate_by_columns
             (before ++ ("companyHandle", v) :: after)%list
             (before ++ ("company_handle", v) :: after)%list
             [("companyHandle", Js.Str "company_handle")]
             [("companyHandle", Js.Str "company_handle")]).
  - reflexivity.
  - unfold Js.keys. now rewrite !map_app.
  - unfold Js.values. now rewrite !map_app.
Qed.

(* ================================================================== *)
(** * More on the reading operations *)
(* ================================================================== *)

Lemma title_text_cases (a b : Js.value) :
  title_text a = title_text b ->
  (a = Js.Undefined /\ b = Js.Undefined)
  \/ (a <> Js.Undefined /\ b <> Js.Undefined
      /\ Js.to_string a = Js.to_string b).
Proof.
  intro H.
  destruct a; destruct b; try discriminate H;
    try (left; split; reflexivity);
    right; (split; [discriminate | split; [discriminate |]]);
    unfold title_text in H; congruence.
Qed.

(** X5.  [findFiltered] reads its argument through three things only:
    the text of [title] (or its being undefined), the value of
    [minSalary] and the truthiness of [hasEquity].  Filters objects that
    agree on these give the same query, hence the same outcome on every
    store: a title given as [null] filters by the text null, any truthy
    [hasEquity] (the text false among them) asks for equity, and keys
    other than the three are ignored. *)
Theorem findFiltered_reads :
  forall (f g : Js.obj) (s : Db.store),
    same_filters f g ->
    Job.findFiltered (Some f) s = Job.findFiltered (Some g) s.
Proof.
  intros f g s (Ht & Hm & He).
  unfold Job.findFiltered. cbv zeta. rewrite Hm, He.
  destruct (title_text_cases _ _ Ht) as [[Ef Eg] | (Nf & Ng & E)].
  - now rewrite Ef, Eg.
  - rewrite E.
    destruct (Js.get f "title"); try contradiction;
      destruct (Js.get g "title"); try contradiction; reflexivity.
Qed.

Lemma findFiltered_reads_witness :
  Job.findFiltered
    (Some [("title", Js.Null); ("hasEquity", Js.Str "false")]) fixture
  = Job.findFiltered
      (Some [("page", Js.Num 2); ("hasEquity", Js.Bool true);
             ("title", Js.Str "null")])
      fixture.
Proof.
  apply (findFiltered_reads
           [("title", Js.Null); ("hasEquity", Js.Str "false")]
           [("page", Js.Num 2); ("hasEquity", Js.Bool true);
            ("title", Js.Str "null")]
           fixture).
  repeat split.
Defined.

Section Reading.

Lemma filter_first (i : Z) (l1 l2 : list Db.job) (j : Db.job) :
  Db.id j = i ->
  (forall x, In x l1 -> Db.id x <> i) ->
  exists more, filter (has_id i) (l1 ++ j :: l2) = j :: more.
Proof.
  intros Hj Hl1. rewrite filter_app, (filter_has_id_nil i l1 Hl1).
  simpl. unfold has_id at 1. rewrite Hj, Z.eqb_refl. eauto.
Qed.

End Reading.

(** X6.  For an id that the column [id] of the store holds, [get] throws
    [NotFoundError] exactly when no job has the id, and otherwise returns
    the first row with that id (the only one, ids being unique).  An id
    that the column does not hold reaches the store as it is, and [get]
    throws the error of the store.  What [get] returns is a row of the
    table with the id, and the store is as it was whatever happens. *)
Theorem get_spec :
  forall (id : Z) (s : Db.store),
    (Db.in_int4 id = true ->
     (Job.get id s = (Err (Job.no_job id), s)
      <-> (forall j, In j (Db.jobs s) -> Db.id j <> id))
     /\ (forall l1 j l2,
            Db.jobs s = (l1 ++ j :: l2)%list ->
            Db.id j = id ->
            (forall x, In x l1 -> Db.id x <> id) ->
            Job.get id s = (Ok j, s)))
    /\ (Db.in_int4 id = false ->
        Job.get id s = (Err (StoreError "invalid parameter"), s))
    /\ (forall j s',
           Job.get id s = (Ok j, s') ->
           s' = s /\ In j (Db.jobs s) /\ Db.id j = id)
    /\ snd (Job.get id s) = s.
Proof.
  intros id s. rewrite get_unfold.
  split; [| split; [| split]].
  - intros ->. split.
    + split.
      * intros H j Hj Hid.
        destruct (filter_has_id_cons id (Db.jobs s)) as (x & rest & E);
          [now exists j |].
        rewrite E in H. discriminate.
      * intro H. now rewrite (filter_has_id_nil id _ H).
    + intros l1 j l2 Hjobs Hid Hl1.
      rewrite Hjobs.
      destruct (filter_first id l1 l2 j Hid Hl1) as [more ->]. reflexivity.
  - now intros ->.
  - intros j s' H.
    destruct (Db.in_int4 id); [| discriminate].
    destruct (filter (has_id id) (Db.jobs s)) as [| x rest] eqn:E;
      [discriminate |].
    injection H as Hj Hs. subst x s'.
    assert (Hx : In j (filter (has_id id) (Db.jobs s)))
      by (rewrite E; now left).
    apply filter_In in Hx as [Hin Hid].
    repeat split; [exact Hin | now apply Z.eqb_eq].
  - destruct (Db.in_int4 id); [| reflexivity].
    now destruct (filter (has_id id) (Db.jobs s)).
Qed.

Lemma get_spec_witness :
  Job.get 999 fixture = (Err (Job.no_job 999), fixture)
  /\ Job.get 2 fixture = (Ok job2, fixture)
  /\ Job.get 2147483648 fixture
     = (Err (StoreError "invalid parameter"), fixture).
Proof.
  split; [| split].
  - apply (proj1 (proj1 (get_spec 999 fixture) eq_refl)).
    intros j [<- | [<- | [<- | []]]]; discriminate.
  - apply (proj2 (proj1 (get_spec 2 fixture) eq_refl) [job1] job2 [job3]).
    + reflexivity.
    + reflexivity.
    + intros x [<- | []]. discriminate.
  - apply (proj1 (proj2 (get_spec 2147483648 fixture))). reflexivity.
Defined.

Section Company.

Variable s : Db.store.

Lemma holds_all_company (h : string) (j : Db.job) :
  Db.holds_all [Db.BCompanyHandleEq (Some h)] j = of_company h j.
Proof.
  unfold Db.holds_all, of_company. simpl. apply andb_true_r.
Qed.

Lemma holds_all_no_company (j : Db.job) :
  Db.holds_all [Db.BCompanyHandleEq None] j = false.
Proof. reflexivity. Qed.

End Company.

(** X7.  [findByCompanyHandle] with a handle given as text succeeds,
    leaves the store as it was and returns the jobs of that company and
    no other, in the order of the table: they are the jobs [findAll]
    lists for that company.  Called with [undefined] or [null] it returns
    no job at all, without an error. *)
Theorem findByCompanyHandle_spec :
  forall (s : Db.store),
    (forall h,
        Job.findByCompanyHandle (Js.Str h) s
        = (Ok (filter (of_company h) (Db.jobs s)), s))
    /\ (forall h j all,
           Job.findAll s = (Ok all, s) ->
           (In j (filter (of_company h) (Db.jobs s))
            <-> In j all /\ Db.companyHandle j = h))
    /\ Job.findByCompanyHandle Js.Undefined s = (Ok [], s)
    /\ Job.findByCompanyHandle Js.Null s = (Ok [], s).
Proof.
  intro s. split; [| split; [| split]].
  - intro h.
    unfold Job.findByCompanyHandle, bind, db_query, Db.query, Db.exec_select,
      ret.
    cbn. f_equal. f_equal. apply filter_ext. intro j.
    unfold of_company. apply andb_true_r.
  - intros h j all Hall.
    unfold Job.findAll, bind, db_query, Db.query, Db.exec_select, ret in Hall.
    cbn in Hall. injection Hall as <-.
    rewrite filter_In. unfold of_company. rewrite String.eqb_eq.
    split; intros [Hin Hh]; (split; [| exact Hh]).
    + apply (Permutation_in _ (Permutation_sym (order_by_handle_perm _))).
      now rewrite (filter_ext (Db.holds_all []) (fun _ => true)
                     (fun _ => eq_refl)), filter_true.
    + apply (Permutation_in _ (order_by_handle_perm _)) in Hin.
      now rewrite (filter_ext (Db.holds_all []) (fun _ => true)
                     (fun _ => eq_refl)), filter_true in Hin.
  - unfold Job.findByCompanyHandle, bind, db_query, Db.query, Db.exec_select,
      ret.
    cbn. f_equal. f_equal.
    induction (Db.jobs s) as [| x l IH]; [reflexivity | exact IH].
  - unfold Job.findByCompanyHandle, bind, db_query, Db.query, Db.exec_select,
      ret.
    cbn. f_equal. f_equal.
    induction (Db.jobs s) as [| x l IH]; [reflexivity | exact IH].
Qed.

Lemma filter_other_id (i i' : Z) :
  i' <> i ->
  forall l : list Db.job,
    filter (has_id i') (filter (fun j => negb (has_id i j)) l)
    = filter (has_id i') l.
Proof.
  intros Hne l. induction l as [| y l IH]; [reflexivity |].
  cbn [filter].
  destruct (has_id i y) eqn:Ey; cbn [negb].
  - apply has_id_true in Ey.
    assert (E' : has_id i' y = false)
      by (apply has_id_false; congruence).
    now rewrite E'.
  - cbn [filter]. destruct (has_id i' y); [now rewrite IH | exact IH].
Qed.

(** X8.  After a successful [remove] the job is gone for good: [get] on
    its id throws [NotFoundError], a second [remove] throws
    [NotFoundError] and changes nothing, and [get] on any other id gives
    what it gave before. *)
Theorem remove_then :
  forall (id : Z) (s s' : Db.store),
    Job.remove id s = (Ok tt, s') ->
    Job.get id s' = (Err (Job.no_job id), s')
    /\ Job.remove id s' = (Err (Job.no_job id), s')
    /\ forall id', id' <> id -> fst (Job.get id' s') = fst (Job.get id' s).
Proof.
  intros id s s' H. rewrite remove_unfold in H.
  destruct (Db.in_int4 id) eqn:Hr; [| discriminate].
  destruct (filter (has_id id) (Db.jobs s)) as [| x rest] eqn:E;
    [discriminate |].
  injection H as <-.
  assert (Hgone : filter (has_id id)
                    (filter (fun j => negb (has_id id j)) (Db.jobs s)) = []).
  { apply filter_has_id_nil. intros j Hj Hid.
    apply filter_In in Hj as [_ Hj].
    unfold has_id in Hj. rewrite Hid, Z.eqb_refl in Hj. discriminate. }
  split; [| split].
  - rewrite get_unfold, Hr. cbn [Db.jobs]. now rewrite Hgone.
  - rewrite remove_unfold, Hr. cbn [Db.jobs]. now rewrite Hgone.
  - intros id' Hne. rewrite !get_unfold. cbn [Db.jobs].
    destruct (Db.in_int4 id'); [| reflexivity].
    pose proof (filter_other_id id id' Hne (Db.jobs s)) as Hsame.
    rewrite Hsame.
    now destruct (filter (has_id id') (Db.jobs s)).
Qed.

Lemma remove_then_witness :
  Job.get 2 (Db.mkStore [job1; job3] ["c1"; "c2"; "c3"])
  = (Err (Job.no_job 2), Db.mkStore [job1; job3] ["c1"; "c2"; "c3"])
  /\ Job.remove 2 (Db.mkStore [job1; job3] ["c1"; "c2"; "c3"])
     = (Err (Job.no_job 2), Db.mkStore [job1; job3] ["c1"; "c2"; "c3"])
  /\ forall id', id' <> 2%Z ->
                 fst (Job.get id' (Db.mkStore [job1; job3] ["c1"; "c2"; "c3"]))
                 = fst (Job.get id' fixture).
Proof.
  apply (remove_then 2 fixture (Db.mkStore [job1; job3] ["c1"; "c2"; "c3"])).
  vm_compute. reflexivity.
Defined.

(* ================================================================== *)
(** * [findFiltered] and [findAll] *)
(* ================================================================== *)

Section Within.

Lemma filter_perm (p : Db.job -> bool) (l l' : list Db.job) :
  Permutation l l' -> Permutation (filter p l) (filter p l').
Proof.
  induction 1 as [| x l l' _ IH | x y l | l l' l'' _ IH1 _ IH2]; simpl.
  - constructor.
  - destruct (p x); [now constructor | exact IH].
  - destruct (p x), (p y); try apply Permutation_refl. apply perm_swap.
  - now apply perm_trans with (filter p l').
Qed.

Lemma findAll_rows (s : Db.store) :
  Job.findAll s = (Ok (Db.order_by_handle (Db.jobs s)), s).
Proof.
  unfold Job.findAll, bind, db_query, Db.query, Db.exec_select, ret.
  cbn.
  now rewrite (filter_ext (Db.holds_all []) (fun _ => true)
                 (fun _ => eq_refl)), filter_true.
Qed.

End Within.

(** X9.  When [minSalary] is left out or is an integer the column
    [salary] holds, [findFiltered] returns, by ascending company handle,
    the rows of [findAll] that pass the filters, each as often as
    [findAll] has it: a filter never adds a row. *)
Theorem findFiltered_within_findAll :
  forall (filters : Js.obj) (s : Db.store),
    (Js.get filters "minSalary" = Js.Undefined
     \/ exists m, Js.get filters "minSalary" = Js.Num m
                  /\ Db.in_int4 m = true) ->
    exists all rows,
      Job.findAll s = (Ok all, s)
      /\ Job.findFiltered (Some filters) s = (Ok rows, s)
      /\ Permutation rows (filter (satisfies filters) all)
      /\ Sorted by_handle rows.
Proof.
  intros filters s Hm.
  exists (Db.order_by_handle (Db.jobs s)),
         (Db.order_by_handle (filter (satisfies filters) (Db.jobs s))).
  split; [apply findAll_rows |].
  split; [now apply findFiltered_rows |].
  split; [| apply order_by_handle_sorted].
  apply perm_trans with (filter (satisfies filters) (Db.jobs s)).
  - apply order_by_handle_perm.
  - apply filter_perm, Permutation_sym, order_by_handle_perm.
Qed.

Lemma findFiltered_within_findAll_witness :
  exists all rows,
    Job.findAll fixture = (Ok all, fixture)
    /\ Job.findFiltered (Some [("minSalary", Js.Num 60000)]) fixture
       = (Ok rows, fixture)
    /\ Permutation rows (filter (satisfies [("minSalary", Js.Num 60000)]) all)
    /\ Sorted by_handle rows.
Proof.
  apply (findFiltered_within_findAll [("minSalary", Js.Num 60000)] fixture).
  right. exists 60000%Z. split; reflexivity.
Defined.

(* ================================================================== *)
(** * [update], then *)
(* ================================================================== *)

Section After.

Lemma Forall2_diag {A B : Type} (R : A -> B -> Prop) (R' : B -> B -> Prop)
      (l : list A) (l' : list B) :
  (forall x y, R x y -> R' y y) -> Forall2 R l l' -> Forall2 R' l' l'.
Proof.
  intros HR H. induction H; constructor; eauto.
Qed.

Lemma filter_all (p : Db.job -> bool) (l : list Db.job) :
  Forall (fun x => p x = true) l -> filter p l = l.
Proof.
  induction 1 as [| x l Hx _ IH]; simpl; [reflexivity |].
  now rewrite Hx, IH.
Qed.

Lemma filter_no (p : Db.job -> bool) (l : list Db.job) :
  Forall (fun x => p x = false) l -> filter p l = [].
Proof.
  induction 1 as [| x l Hx _ IH]; simpl; [reflexivity |].
  now rewrite Hx, IH.
Qed.

Lemma others_without (i : Z) (l : list Db.job) :
  Forall (fun x => has_id i x = false) (others i l).
Proof.
  apply Forall_forall. intros x Hx.
  apply filter_In in Hx as [_ Hx]. now apply negb_true_iff.
Qed.

Variable id : Z.
Variable data : Js.obj.
Variable s : Db.store.
Variable asg : list Db.assignment.
Variable versions : list Db.job.

Hypothesis typed : typed_update data = Some asg.
Hypothesis id_kept : ~ In "id" (map column_of (Js.keys data)).

Lemma versions_keep_id (l l' : list Db.job) :
  Forall2 (version s asg) l l' ->
  Forall (fun x => Db.id x = id) l ->
  Forall (fun x' => has_id id x' = true) l'.
Proof.
  induction 1 as [| x x' l l' Hxx' _ IH]; intro Hsel; constructor;
    inversion Hsel; subst.
  - unfold has_id. apply Z.eqb_eq.
    now apply (version_keeps_id data s asg typed x x' id_kept Hxx').
  - now apply IH.
Qed.

Hypothesis written : Forall2 (version s asg)
                       (filter (has_id id) (Db.jobs s)) versions.

(** The new versions of the rows with the id have the id. *)
Lemma versions_have_id : Forall (fun x' => has_id id x' = true) versions.
Proof.
  apply (versions_keep_id _ _ written).
  apply Forall_forall. intros x Hx.
  apply filter_In in Hx as [_ Hx]. now apply Z.eqb_eq.
Qed.

(** In the table the update leaves, the rows with the id are the new
    versions, and the other rows are the rows that had another id. *)
Lemma versions_selected :
  filter (has_id id) (others id (Db.jobs s) ++ versions) = versions.
Proof.
  rewrite filter_app, (filter_no _ _ (others_without id _)).
  apply filter_all, versions_have_id.
Qed.

Lemma versions_others :
  others id (others id (Db.jobs s) ++ versions) = others id (Db.jobs s).
Proof.
  unfold others at 1. rewrite filter_app.
  rewrite filter_all, filter_no.
  - apply List.app_nil_r.
  - eapply Forall_impl; [| apply versions_have_id].
    intros x Hx. simpl in Hx. now rewrite Hx.
  - eapply Forall_impl; [| apply others_without].
    intros x Hx. simpl in Hx. now rewrite Hx.
Qed.

Lemma versions_ids :
  map Db.id versions = map Db.id (filter (has_id id) (Db.jobs s)).
Proof.
  eapply Forall2_map; [| exact written].
  intros x x'. now apply (version_keeps_id data s asg typed).
Qed.

End After.

(** X10.  After a successful [update] whose data does not name the
    column [id], the table has the ids it had, each as often; and with
    unique ids [get] on the id then returns the very record [update]
    returned. *)
Theorem update_then_get :
  forall (id : Z) (data : Js.obj) (s s' : Db.store) (r' : Db.job),
    forallb no_dquote (Js.keys data) = true ->
    ~ In "id" (map column_of (Js.keys data)) ->
    Job.update id data s = (Ok r', s') ->
    Permutation (map Db.id (Db.jobs s')) (map Db.id (Db.jobs s))
    /\ (NoDup (map Db.id (Db.jobs s)) -> Job.get id s' = (Ok r', s')).
Proof.
  intros id data s s' r' Hq Hnid H.
  destruct (update_success id data s r' s' Hq H)
    as (asg & versions & Ht & Hd & Hr & Hv & Hhd & Hjobs & Hc).
  split.
  - rewrite Hjobs, map_app, (versions_ids id data s asg versions Ht Hnid Hv).
    rewrite <- map_app. apply Permutation_map. apply filter_split_perm.
  - intro Hnd. rewrite get_unfold, Hr, Hjobs.
    rewrite (versions_selected id data s asg versions Ht Hnid Hv).
    destruct versions as [| v more]; [discriminate |].
    now inversion Hhd.
Qed.

Lemma update_then_get_witness :
  Permutation (map Db.id (Db.jobs fixture_job1_renamed))
              (map Db.id (Db.jobs fixture))
  /\ (NoDup (map Db.id (Db.jobs fixture)) ->
      Job.get 1 fixture_job1_renamed
      = (Ok job1_renamed, fixture_job1_renamed)).
Proof.
  apply (update_then_get 1 [("title", Js.Str "Job 1 new")] fixture
           fixture_job1_renamed job1_renamed).
  - reflexivity.
  - simpl. intros [E | []]. discriminate.
  - reflexivity.
Defined.

Section Idempotence.

Lemma assign_total (a : Db.assignment) (x x' y : Db.job) :
  Db.assign a x = Some x' -> exists y', Db.assign a y = Some y'.
Proof.
  destruct a as [[z |] | [t |] | o | o | [t |]]; simpl; intro H;
    try discriminate; eauto.
Qed.

Lemma assign_all_total (asg : list Db.assignment) :
  forall x x' y,
    Db.assign_all asg x = Some x' -> exists y', Db.assign_all asg y = Some y'.
Proof.
  induction asg as [| a rest IH]; simpl; intros x x' y H.
  - eauto.
  - destruct (Db.assign a x) as [x1 |] eqn:E; [| discriminate].
    destruct (assign_total a x x1 y E) as [y1 Ey]. rewrite Ey.
    now apply (IH x1 x' y1).
Qed.

(** A row is its five columns. *)
Lemma job_by_fields (x y : Db.job) :
  (forall c, Db.field c x = Db.field c y) -> x = y.
Proof.
  intro H.
  pose proof (H "id") as H1. pose proof (H "title") as H2.
  pose proof (H "salary") as H3. pose proof (H "equity") as H4.
  pose proof (H "company_handle") as H5.
  unfold Db.field in H1, H2, H3, H4, H5.
  simpl in H1, H2, H3, H4, H5.
  destruct x as [xi xt xs xe xh], y as [yi yt ys ye yh]. simpl in *.
  destruct xs, ys, xe, ye; try discriminate; congruence.
Qed.

Lemma in_targets (asg : list Db.assignment) (c : string) :
  In c (map Db.target asg) -> exists a, In a asg /\ Db.target a = c.
Proof.
  intro H. apply in_map_iff in H as (a & E & Ha). now exists a.
Qed.

(** Assigning again what was assigned changes nothing. *)
Lemma assign_all_again (asg : list Db.assignment) (x x' : Db.job) :
  Db.distinct (map Db.target asg) = true ->
  Db.assign_all asg x = Some x' ->
  Db.assign_all asg x' = Some x'.
Proof.
  intros Hd Ha.
  destruct (assign_all_total asg x x' x' Ha) as [y' Hy].
  rewrite Hy. f_equal. apply job_by_fields. intro c.
  destruct (in_dec string_dec c (map Db.target asg)) as [Hin | Hout].
  - destruct (in_targets asg c Hin) as (a & Hain & <-).
    rewrite (assign_all_written asg a x' y' Hy Hd Hain).
    now rewrite (assign_all_written asg a x x' Ha Hd Hain).
  - apply (assign_all_frame asg c x' y' Hy Hout).
Qed.

(** A new version is its own new version, in any store with the same
    companies. *)
Lemma version_again (s s' : Db.store) (asg : list Db.assignment)
      (x x' : Db.job) :
  Db.companies s' = Db.companies s ->
  Db.distinct (map Db.target asg) = true ->
  version s asg x x' -> version s' asg x' x'.
Proof.
  intros Hc Hd [Ha Ho]. split.
  - now apply (assign_all_again asg x x').
  - unfold Db.row_ok in *. now rewrite Hc.
Qed.

End Idempotence.

(** X11.  [update] is idempotent when its data does not name the column
    [id]: repeating a successful update on the store it left returns the
    same record and leaves that store as it is. *)
Theorem update_idempotent :
  forall (id : Z) (data : Js.obj) (s s' : Db.store) (r' : Db.job),
    forallb no_dquote (Js.keys data) = true ->
    ~ In "id" (map column_of (Js.keys data)) ->
    Job.update id data s = (Ok r', s') ->
    Job.update id data s' = (Ok r', s').
Proof.
  intros id data s s' r' Hq Hnid H.
  destruct (update_success id data s r' s' Hq H)
    as (asg & versions & Ht & Hd & Hr & Hv & Hhd & Hjobs & Hc).
  assert (Hnid' : ~ In "id" (map Db.target asg))
    by now rewrite (typed_update_targets data asg Ht).
  assert (Hne : data <> []) by (intros ->; discriminate).
  rewrite (update_unfold id data s' Hne (columns_no_dquote _ Hq)), Ht, Hr.
  unfold apply_update. rewrite Hd.
  assert (Er : Db.rewrite_rows s' (has_id id) asg (Db.jobs s')
               = Some versions).
  { apply rewrite_rows_versions. rewrite Hjobs.
    rewrite (versions_selected id data s asg versions Ht Hnid Hv).
    eapply Forall2_diag; [| exact Hv].
    intros x x'. now apply version_again. }
  assert (Hsame : (others id (Db.jobs s') ++ versions)%list = Db.jobs s').
  { rewrite Hjobs at 1.
    rewrite (versions_others id data s asg versions Ht Hnid Hv).
    now symmetry. }
  rewrite Er. cbv zeta.
  rewrite (existsb_eqb_absent "id" _ Hnid'). cbn [andb].
  change (filter (fun j => negb (has_id id j)) (Db.jobs s'))
    with (others id (Db.jobs s')).
  rewrite Hsame, store_eta.
  destruct versions as [| v more]; [discriminate |].
  now inversion Hhd.
Qed.

Lemma update_idempotent_witness :
  Job.update 1 [("title", Js.Str "Job 1 new")] fixture_job1_renamed
  = (Ok job1_renamed, fixture_job1_renamed).
Proof.
  apply (update_idempotent 1 [("title", Js.Str "Job 1 new")] fixture).
  - reflexivity.
  - simpl. intros [E | []]. discriminate.
  - reflexivity.
Defined.

(* ================================================================== *)
(** * [create] *)
(* ================================================================== *)

Section Creating.

Variable data : Js.obj.
Variable d : Db.sequenced.

(** What [create] makes of its data, and when. *)
Lemma create_unfold :
  Job.create data d
  = match Db.param_text (Js.get data "title"),
          Db.as_integer (Js.get data "salary"),
          Db.as_numeric (Js.get data "equity"),
          Db.param_text (Js.get data "companyHandle") with
    | Some t, Some sal, Some eq, Some h =>
        if Db.in_int4 (Db.next_id d) then
          let j := Db.mkJob (Db.next_id d) t sal eq h in
          if Db.row_ok (Db.table d) j
             && (Db.id_count (Db.next_id d) (Db.jobs (Db.table d)) =? 0)%nat
          then (Ok (Some j),
                Db.mkSequenced
                  (Db.mkStore (Db.jobs (Db.table d) ++ [j])%list
                              (Db.companies (Db.table d)))
                  (Db.next_id d + 1))
          else (Err (StoreError "constraint violation"),
                Db.mkSequenced (Db.table d) (Db.next_id d + 1))
        else (Err (StoreError "sequence exhausted"), d)
    | None, Some _, Some _, _ | Some _, Some _, Some _, None =>
        if Db.in_int4 (Db.next_id d)
        then (Err (StoreError "constraint violation"),
              Db.mkSequenced (Db.table d) (Db.next_id d + 1))
        else (Err (StoreError "sequence exhausted"), d)
    | _, _, _, _ => (Err (StoreError "invalid parameter"), d)
    end.
Proof.
  unfold Job.create, Db.exec_insert, Db.as_text. cbn [Db.param nth_error].
  destruct (Db.param_text (Js.get data "title")) as [t |];
    destruct (Db.as_integer (Js.get data "salary")) as [sal |];
    destruct (Db.as_numeric (Js.get data "equity")) as [eq |];
    destruct (Db.param_text (Js.get data "companyHandle")) as [h |];
    try reflexivity;
    destruct (Db.in_int4 (Db.next_id d));
    try reflexivity.
  cbn zeta.
  now destruct (Db.row_ok (Db.table d) (Db.mkJob (Db.next_id d) t sal eq h)
                && (Db.id_count (Db.next_id d) (Db.jobs (Db.table d)) =? 0)%nat).
Qed.

(** A successful [create], in full. *)
Lemma create_success (j : Db.job) (d' : Db.sequenced) :
  Job.create data d = (Ok (Some j), d') ->
  Db.id j = Db.next_id d
  /\ Db.param_text (Js.get data "title") = Some (Db.title j)
  /\ Db.as_integer (Js.get data "salary") = Some (Db.salary j)
  /\ Db.as_numeric (Js.get data "equity") = Some (Db.equity j)
  /\ Db.param_text (Js.get data "companyHandle") = Some (Db.companyHandle j)
  /\ Db.row_ok (Db.table d) j = true
  /\ Db.id_count (Db.next_id d) (Db.jobs (Db.table d)) = 0%nat
  /\ Db.in_int4 (Db.next_id d) = true
  /\ d' = Db.mkSequenced
            (Db.mkStore (Db.jobs (Db.table d) ++ [j])%list
                        (Db.companies (Db.table d)))
            (Db.next_id d + 1).
Proof.
  rewrite create_unfold.
  destruct (Db.param_text (Js.get data "title")) as [t |];
    destruct (Db.as_integer (Js.get data "salary")) as [sal |];
    destruct (Db.as_numeric (Js.get data "equity")) as [eq |];
    destruct (Db.param_text (Js.get data "companyHandle")) as [h |];
    try discriminate;
    destruct (Db.in_int4 (Db.next_id d)) eqn:Eseq;
    try discriminate.
  cbn zeta.
  destruct (Db.row_ok (Db.table d) (Db.mkJob (Db.next_id d) t sal eq h)) eqn:Eo;
    [| discriminate].
  destruct (Db.id_count (Db.next_id d) (Db.jobs (Db.table d)) =? 0)%nat eqn:Ec;
    [| discriminate].
  cbn [andb]. intro H. inversion H; subst; clear H.
  apply Nat.eqb_eq in Ec. cbn. repeat split; auto.
Qed.

End Creating.

Section Fresh.

Lemma id_count_fresh (i : Z) (l : list Db.job) :
  (forall j, In j l -> Db.id j <> i) -> Db.id_count i l = 0%nat.
Proof.
  intro H. unfold Db.id_count.
  change (fun x : Db.job => (Db.id x =? i)%Z) with (has_id i).
  now rewrite (filter_has_id_nil i l H).
Qed.

Lemma id_count_zero (i : Z) (l : list Db.job) :
  Db.id_count i l = 0%nat -> forall j, In j l -> Db.id j <> i.
Proof.
  unfold Db.id_count. intros H j Hin E.
  assert (Hf : In j (filter (fun x : Db.job => (Db.id x =? i)%Z) l)).
  { apply filter_In. split; [exact Hin |]. now apply Z.eqb_eq. }
  destruct (filter (fun x : Db.job => (Db.id x =? i)%Z) l);
    [destruct Hf | discriminate].
Qed.

End Fresh.

(** X12.  [create] either returns the new row, never undefined, and puts
    this one row after the rows of the table, its id the next of the
    sequence and its other columns the four fields of the data as the
    store reads them (so [title] and [companyHandle] are neither missing
    nor null); or it fails with an error of the store and the table as it
    was.  It never fails with a bad request or a not found error. *)
Theorem create_outcome :
  forall (data : Js.obj) (d : Db.sequenced),
    (exists j d',
        Job.create data d = (Ok (Some j), d')
        /\ Db.jobs (Db.table d') = (Db.jobs (Db.table d) ++ [j])%list
        /\ Db.companies (Db.table d') = Db.companies (Db.table d)
        /\ Db.id j = Db.next_id d
        /\ Db.param_text (Js.get data "title") = Some (Db.title j)
        /\ Db.as_integer (Js.get data "salary") = Some (Db.salary j)
        /\ Db.as_numeric (Js.get data "equity") = Some (Db.equity j)
        /\ Db.param_text (Js.get data "companyHandle")
           = Some (Db.companyHandle j)
        /\ In (Db.companyHandle j) (Db.companies (Db.table d))
        /\ Db.equity_in_range (Db.equity j) = true)
    \/ (exists m d',
           Job.create data d = (Err (StoreError m), d')
           /\ Db.table d' = Db.table d).
Proof.
  intros data d.
  destruct (Job.create data d) as [[[j |] | e] d'] eqn:E.
  - left. exists j, d'.
    destruct (create_success data d j d' E)
      as (Hid & Ht & Hs & He & Hh & Ho & _ & _ & ->).
    unfold Db.row_ok in Ho. apply andb_true_iff in Ho as [Hr Hc].
    apply existsb_exists in Hc as (c & Hin & Hc).
    apply String.eqb_eq in Hc. subst c.
    cbn. repeat split; auto.
  - exfalso. rewrite create_unfold in E.
    destruct (Db.param_text (Js.get data "title"));
      destruct (Db.as_integer (Js.get data "salary"));
      destruct (Db.as_numeric (Js.get data "equity"));
      destruct (Db.param_text (Js.get data "companyHandle"));
      try discriminate;
      destruct (Db.in_int4 (Db.next_id d));
      try discriminate.
    cbn zeta in E.
    match type of E with
    | (if ?c then _ else _) = _ => destruct c; discriminate
    end.
  - right. rewrite create_unfold in E.
    destruct (Db.param_text (Js.get data "title"));
      destruct (Db.as_integer (Js.get data "salary"));
      destruct (Db.as_numeric (Js.get data "equity"));
      destruct (Db.param_text (Js.get data "companyHandle"));
      destruct (Db.in_int4 (Db.next_id d));
      cbn zeta in E;
      try (match type of E with
           | (if ?c then _ else _) = _ => destruct c; [discriminate |]
           end);
      inversion E; subst; eexists; eexists; split; reflexivity.
Qed.

(** X13.  The row a successful [create] returns is the one [get] then
    returns for its id, while [get] on any other id answers as before the
    row was made; and [remove] on its id then succeeds and leaves the
    table as it was before the [create]. *)
Theorem create_then_get :
  forall (data : Js.obj) (d d' : Db.sequenced) (j : Db.job),
    Job.create data d = (Ok (Some j), d') ->
    Job.get (Db.id j) (Db.table d') = (Ok j, Db.table d')
    /\ (forall i, i <> Db.id j ->
          fst (Job.get i (Db.table d')) = fst (Job.get i (Db.table d)))
    /\ Job.remove (Db.id j) (Db.table d') = (Ok tt, Db.table d).
Proof.
  intros data d d' j H.
  destruct (create_success data d j d' H)
    as (Hid & _ & _ & _ & _ & _ & Hc & Hseq & ->).
  rewrite <- Hid in Hc, Hseq.
  pose proof (id_count_zero _ _ Hc) as Hfresh.
  assert (Ej : has_id (Db.id j) j = true)
    by (unfold has_id; apply Z.eqb_refl).
  cbn [Db.table]. split; [| split].
  - rewrite get_unfold, Hseq. cbn [Db.jobs].
    rewrite filter_app, (filter_has_id_nil _ _ Hfresh).
    cbn [filter Datatypes.app]. now rewrite Ej.
  - intros i Hi. rewrite !get_unfold. cbn [Db.jobs].
    destruct (Db.in_int4 i); [| reflexivity].
    rewrite filter_app. cbn [filter].
    assert (E : has_id i j = false) by (apply has_id_false; congruence).
    rewrite E. cbn iota. rewrite List.app_nil_r.
    now destruct (filter (has_id i) (Db.jobs (Db.table d))).
  - rewrite remove_unfold, Hseq. cbn [Db.jobs Db.companies].
    rewrite !filter_app, (filter_has_id_nil _ _ Hfresh).
    rewrite (filter_keep_all _ _ Hfresh).
    cbn [filter Datatypes.app]. rewrite Ej. cbn [negb].
    rewrite List.app_nil_r. now rewrite store_eta.
Qed.

Lemma create_then_get_witness :
  Job.get 4
    (Db.mkStore
       (Db.jobs fixture ++ [Db.mkJob 4 "new" (Some 10%Z) None "c1"])
       ["c1"; "c2"; "c3"])
  = (Ok (Db.mkJob 4 "new" (Some 10%Z) None "c1"),
     Db.mkStore
       (Db.jobs fixture ++ [Db.mkJob 4 "new" (Some 10%Z) None "c1"])
       ["c1"; "c2"; "c3"])
  /\ (forall i, i <> 4%Z ->
        fst (Job.get i
               (Db.mkStore
                  (Db.jobs fixture
                   ++ [Db.mkJob 4 "new" (Some 10%Z) None "c1"])
                  ["c1"; "c2"; "c3"]))
        = fst (Job.get i fixture))
  /\ Job.remove 4
       (Db.mkStore
          (Db.jobs fixture ++ [Db.mkJob 4 "new" (Some 10%Z) None "c1"])
          ["c1"; "c2"; "c3"])
     = (Ok tt, fixture).
Proof.
  apply (create_then_get
           [("title", Js.Str "new"); ("salary", Js.Num 10);
            ("equity", Js.Null); ("companyHandle", Js.Str "c1")]
           (Db.mkSequenced fixture 4)
           (Db.mkSequenced
              (Db.mkStore
                 (Db.jobs fixture ++ [Db.mkJob 4 "new" (Some 10%Z) None "c1"])
                 ["c1"; "c2"; "c3"]) 5)
           (Db.mkJob 4 "new" (Some 10%Z) None "c1")).
  reflexivity.
Defined.

(** X14.  [create] looks for no job already in the table.  On a table
    whose ids are all below the next of the sequence, a successful
    [create] keeps it so, and repeating it with the same data succeeds
    again, as long as the sequence has another id the column [id] holds:
    the table then ends with two rows that differ in their ids alone. *)
Theorem create_twice :
  forall (data : Js.obj) (d d' : Db.sequenced) (j : Db.job),
    ahead d ->
    Db.in_int4 (Db.next_id d + 1) = true ->
    Job.create data d = (Ok (Some j), d') ->
    ahead d'
    /\ exists d'',
         Job.create data d'
         = (Ok (Some (Db.mkJob (Db.id j + 1) (Db.title j) (Db.salary j)
                               (Db.equity j) (Db.companyHandle j))), d'')
         /\ Db.jobs (Db.table d'')
            = (Db.jobs (Db.table d)
               ++ [j; Db.mkJob (Db.id j + 1) (Db.title j) (Db.salary j)
                               (Db.equity j) (Db.companyHandle j)])%list.
Proof.
  intros data d d' j Ha Hnext H.
  destruct (create_success data d j d' H)
    as (Hid & Ht & Hs & He & Hh & Ho & Hc & _ & ->).
  split.
  { intros x Hx. cbn [Db.table Db.next_id Db.jobs] in *.
    apply in_app_or in Hx as [Hx | [<- | []]].
    - specialize (Ha x Hx). lia.
    - lia. }
  rewrite create_unfold, Ht, Hs, He, Hh.
  cbn [Db.table Db.next_id Db.jobs Db.companies]. rewrite Hnext. cbn zeta.
  rewrite <- Hid.
  assert (Ho' : Db.row_ok
                  (Db.mkStore (Db.jobs (Db.table d) ++ [j])%list
                              (Db.companies (Db.table d)))
                  (Db.mkJob (Db.id j + 1) (Db.title j) (Db.salary j)
                            (Db.equity j) (Db.companyHandle j)) = true).
  { unfold Db.row_ok in *. exact Ho. }
  assert (Hc' : Db.id_count (Db.id j + 1) (Db.jobs (Db.table d) ++ [j])%list
                = 0%nat).
  { apply id_count_fresh. intros x Hx.
    apply in_app_or in Hx as [Hx | [<- | []]].
    - specialize (Ha x Hx). lia.
    - lia. }
  rewrite Ho', Hc'. cbn [andb Nat.eqb].
  eexists. split; [reflexivity |].
  cbn [Db.table Db.jobs]. now rewrite <- app_assoc.
Qed.

Lemma create_twice_witness :
  ahead (Db.mkSequenced
           (Db.mkStore
              (Db.jobs fixture ++ [Db.mkJob 4 "new" (Some 10%Z) None "c1"])
              ["c1"; "c2"; "c3"]) 5)
  /\ exists d'',
       Job.create
         [("title", Js.Str "new"); ("salary", Js.Num 10);
          ("equity", Js.Null); ("companyHandle", Js.Str "c1")]
         (Db.mkSequenced
            (Db.mkStore
               (Db.jobs fixture ++ [Db.mkJob 4 "new" (Some 10%Z) None "c1"])
               ["c1"; "c2"; "c3"]) 5)
       = (Ok (Some (Db.mkJob (4 + 1) "new" (Some 10%Z) None "c1")), d'')
       /\ Db.jobs (Db.table d'')
          = (Db.jobs fixture
             ++ [Db.mkJob 4 "new" (Some 10%Z) None "c1";
                 Db.mkJob (4 + 1) "new" (Some 10%Z) None "c1"])%list.
Proof.
  apply (create_twice
           [("title", Js.Str "new"); ("salary", Js.Num 10);
            ("equity", Js.Null); ("companyHandle", Js.Str "c1")]
           (Db.mkSequenced fixture 4)
           (Db.mkSequenced
              (Db.mkStore
                 (Db.jobs fixture ++ [Db.mkJob 4 "new" (Some 10%Z) None "c1"])
                 ["c1"; "c2"; "c3"]) 5)
           (Db.mkJob 4 "new" (Some 10%Z) None "c1")).
  - intros x Hx. simpl in Hx.
    destruct Hx as [<- | [<- | [<- | []]]]; simpl; lia.
  - reflexivity.
  - reflexivity.
Defined.

(* ================================================================== *)
(** * The tests of the repository, run on the model *)
(* ================================================================== *)

Section Tests.

(** [helpers/sql.test.js] *)

Example sql_transforms_data :
  sqlForPartialUpdate
    [("firstName", Js.Str "Aliya"); ("age", Js.Num 32)]
    [("firstName", Js.Str "first_name")]
  = Ok {| setCols := quoted "first_name" ++ "=$1, " ++ quoted "age" ++ "=$2";
          values := [Js.Str "Aliya"; Js.Num 32] |}.
Proof. reflexivity. Qed.

Example sql_no_data :
  sqlForPartialUpdate [] [("firstName", Js.Str "first_name")]
  = Err (BadRequestError "No data").
Proof. reflexivity. Qed.

Example sql_without_mapping :
  sqlForPartialUpdate
    [("lastName", Js.Str "Smith"); ("age", Js.Num 40)]
    [("firstName", Js.Str "first_name")]
  = Ok {| setCols := quoted "lastName" ++ "=$1, " ++ quoted "age" ++ "=$2";
          values := [Js.Str "Smith"; Js.Num 40] |}.
Proof. reflexivity. Qed.

Example sql_with_mapping :
  sqlForPartialUpdate
    [("firstName", Js.Str "Aliya"); ("age", Js.Num 32)]
    [("firstName", Js.Str "first_name"); ("age", Js.Str "age_years")]
  = Ok {| setCols := quoted "first_name" ++ "=$1, "
                     ++ quoted "age_years" ++ "=$2";
          values := [Js.Str "Aliya"; Js.Num 32] |}.
Proof. reflexivity. Qed.

Example sql_one_field :
  sqlForPartialUpdate [("age", Js.Num 32)] [("age", Js.Str "age_years")]
  = Ok {| setCols := quoted "age_years" ++ "=$1";
          values := [Js.Num 32] |}.
Proof. reflexivity. Qed.

(** [models/job.test.js] *)

Example test_findAll :
  fst (Job.findAll fixture) = Ok [job1; job2; job3].
Proof. reflexivity. Qed.

Example test_get :
  fst (Job.get 1 fixture) = Ok job1.
Proof. vm_compute. reflexivity. Qed.

Example test_get_not_found :
  fst (Job.get 1002 fixture) = Err (NotFoundError "No job: 1002").
Proof. vm_compute. reflexivity. Qed.

Example test_update :
  fst (Job.update 1
         [("title", Js.Str "Updated Job"); ("salary", Js.Num 150000);
          ("equity", Js.Str "0.15")]
         fixture)
  = Ok (Db.mkJob 1 "Updated Job" (Some 150000%Z)
                 (Some (Db.mkNumeric 15 2)) "c1").
Proof. vm_compute. reflexivity. Qed.

Example test_update_null_fields :
  fst (Job.update 1
         [("title", Js.Str "Updated Job"); ("salary", Js.Null);
          ("equity", Js.Null)]
         fixture)
  = Ok (Db.mkJob 1 "Updated Job" None None "c1").
Proof. vm_compute. reflexivity. Qed.

Example test_update_not_found :
  Job.update 1002
    [("title", Js.Str "Updated Job"); ("salary", Js.Num 150000);
     ("equity", Js.Str "0.15")]
    fixture
  = (Err (NotFoundError "No job: 1002"), fixture).
Proof. vm_compute. reflexivity. Qed.

Example test_update_no_data :
  Job.update 1 [] fixture = (Err (BadRequestError "No data"), fixture).
Proof. reflexivity. Qed.

Example test_remove :
  Job.remove 1 fixture
  = (Ok tt, Db.mkStore [job2; job3] (Db.companies fixture)).
Proof. vm_compute. reflexivity. Qed.

Example test_remove_not_found :
  Job.remove 1002 fixture = (Err (NotFoundError "No job: 1002"), fixture).
Proof. vm_compute. reflexivity. Qed.

Example test_findFiltered_no_filter :
  fst (Job.findFiltered None fixture) = Ok [job1; job2; job3].
Proof. reflexivity. Qed.

Example test_findFiltered_title :
  fst (Job.findFiltered (Some [("title", Js.Str "title1")]) fixture)
  = Ok [job1].
Proof. vm_compute. reflexivity. Qed.

Example test_findFiltered_minSalary :
  fst (Job.findFiltered (Some [("minSalary", Js.Num 60000)]) fixture)
  = Ok [job2; job3].
Proof. vm_compute. reflexivity. Qed.

Example test_findFiltered_hasEquity :
  fst (Job.findFiltered (Some [("hasEquity", Js.Bool true)]) fixture)
  = Ok [job2; job3].
Proof. vm_compute. reflexivity. Qed.

Example test_findFiltered_combined :
  fst (Job.findFiltered
         (Some [("minSalary", Js.Num 50000); ("hasEquity", Js.Bool true)])
         fixture)
  = Ok [job2; job3].
Proof. vm_compute. reflexivity. Qed.

(** [create], as its test calls it, on the store of the tests with the
    next id at 4. *)
Example test_create :
  Job.create
    [("title", Js.Str "New Job"); ("salary", Js.Num 50000);
     ("equity", Js.Str "0.05"); ("companyHandle", Js.Str "c1")]
    (Db.mkSequenced fixture 4)
  = (Ok (Some new_job), Db.mkSequenced with_new_job 5).
Proof. vm_compute. reflexivity. Qed.

(** The store lists an updated row after the others, and so does
    [findAll] among the rows of one company. *)
Example test_findAll_after_update :
  fst (Job.findAll fixture_job1_renamed) = Ok [job2; job1_renamed; job3].
Proof. vm_compute. reflexivity. Qed.

(** Numbers as the code writes them into text. *)
Example test_number_text :
  map (fun z => Js.to_string (Js.Num z))
      [0; -5; 2147483648; 9007199254740993; 1152921504606846976;
       1000000000000000000000; 1180591620717411303424;
       -1000000000000000000000]%Z
  = ["0"; "-5"; "2147483648"; "9007199254740992"; "1152921504606847000";
     "1e+21"; "1.1805916207174113e+21"; "-1e+21"].
Proof. vm_compute. reflexivity. Qed.

Example test_get_beyond_integers :
  Job.get 1000000000000000000000 fixture
  = (Err (StoreError "invalid parameter"), fixture).
Proof. vm_compute. reflexivity. Qed.

(** The text of the conditions [findFiltered] joins. *)
Example test_where_text :
  Js.join " AND "
    (map Db.cond_sql [Db.TitleILike 1; Db.SalaryGe 2; Db.EquityGt 3])
  = "title ILIKE $1 AND salary >= $2 AND equity > $3".
Proof. reflexivity. Qed.

End Tests.
